(** * website/models.py: the persistence schema of the tuning web service

    The Django models of [src/website/models.py] as a relational store with
    explicit state passing: every table is a list of rows, a foreign key is
    the primary key of the row it points to, and a method that writes to the
    database is a function from stores to stores.  The two view helpers and
    the three [clean_fields] overrides are functions into an error monad
    whose errors are the Python exceptions the code can raise. *)

From stdpp Require Import gmap strings list fin_maps pretty.
From Stdlib Require Import ZArith Lia.
From Stdlib Require PrimFloat SpecFloat FloatOps.

Set Warnings "-register-all".
Local Open Scope Z_scope.

(** ** Rows

    One record per model class, with the primary key Django adds ([pk]), the
    foreign keys, and the columns some method of the file reads.  The
    remaining columns (descriptions, time stamps, latencies) are plain data
    that no method touches. *)

Module KnobCatalog.
Record t := mk {
  pk : Z;
  dbms : Z;
  name : string;
  vartype : Z;
  tunable : bool
}.
End KnobCatalog.

Module MetricCatalog.
Record t := mk {
  pk : Z;
  dbms : Z;
  name : string;
  vartype : Z;
  metric_type : Z
}.
End MetricCatalog.

Module Project.
Record t := mk {
  pk : Z;
  user : Z;
  name : string
}.
End Project.

Module Application.
Record t := mk {
  pk : Z;
  user : Z;
  name : string;
  hardware : Z;
  project : Z
}.
End Application.

Module BenchmarkConfig.
Record t := mk {
  pk : Z;
  application : Z;
  name : string;
  time : Z
}.
End BenchmarkConfig.

Module DBConf.
Record t := mk {
  pk : Z;
  application : Z;
  name : string;
  configuration : string;
  dbms : Z
}.
End DBConf.

Module DBMSMetrics.
Record t := mk {
  pk : Z;
  application : Z;
  name : string;
  execution_time : Z;
  configuration : string;
  dbms : Z
}.
End DBMSMetrics.

Module Result.
Record t := mk {
  pk : Z;
  application : Z;
  dbms : Z;
  benchmark_config : Z;
  dbms_config : Z;
  dbms_metrics : Z
}.
End Result.

Module ResultData.
Record t := mk {
  pk : Z;
  dbms : Z;
  hardware : Z;
  result : Z
}.
End ResultData.

Module Task.
Record t := mk {
  pk : Z;
  taskmeta_id : string;
  result : Z
}.
End Task.

Module Statistics.
Record t := mk {
  pk : Z;
  result : Z;
  time : Z
}.
End Statistics.

(** ** The store *)

(** The model classes whose rows a deletion started at a [Project] or an
    [Application] can reach. *)
Inductive Model :=
| MProject | MApplication | MBenchmarkConfig | MDBConf | MDBMSMetrics
| MResult | MResultData | MTask | MStatistics.

(** The tables, and a journal of the rows removed so far, oldest first: the
    journal is what makes "before" observable. *)
Record DB := mkDB {
  knobcatalog : list KnobCatalog.t;
  metriccatalog : list MetricCatalog.t;
  projects : list Project.t;
  applications : list Application.t;
  benchmarkconfigs : list BenchmarkConfig.t;
  dbconfs : list DBConf.t;
  dbmsmetrics : list DBMSMetrics.t;
  results : list Result.t;
  resultdata : list ResultData.t;
  tasks : list Task.t;
  statistics : list Statistics.t;
  journal : list (Model * Z)
}.

(** ** [models.Model.delete]: Django's deletion collector

    Every foreign key of the file is declared as [models.ForeignKey(Target)]
    with no [on_delete], the form of the Django versions whose default is
    [CASCADE].  The base [delete] the overrides end with therefore gathers the
    instance together with every row that points to a gathered row, and
    removes them all, the rows that point before the rows pointed to.  The
    cascade follows the foreign keys only: it does not call the [delete]
    overrides of the rows it gathers. *)

(** The primary keys gathered, per model. *)
Record Collector := mkCollector {
  c_projects : list Z;
  c_applications : list Z;
  c_benchmarkconfigs : list Z;
  c_dbconfs : list Z;
  c_dbmsmetrics : list Z;
  c_results : list Z;
  c_resultdata : list Z;
  c_tasks : list Z;
  c_statistics : list Z
}.

(** The collector holding the one instance [delete] was called on. *)
Definition instance (m : Model) (k : Z) : Collector :=
  let only (m' : Model) : list Z :=
    match m, m' with
    | MProject, MProject | MApplication, MApplication
    | MBenchmarkConfig, MBenchmarkConfig | MDBConf, MDBConf
    | MDBMSMetrics, MDBMSMetrics | MResult, MResult
    | MResultData, MResultData | MTask, MTask
    | MStatistics, MStatistics => [k]
    | _, _ => []
    end in
  {| c_projects := only MProject;
     c_applications := only MApplication;
     c_benchmarkconfigs := only MBenchmarkConfig;
     c_dbconfs := only MDBConf;
     c_dbmsmetrics := only MDBMSMetrics;
     c_results := only MResult;
     c_resultdata := only MResultData;
     c_tasks := only MTask;
     c_statistics := only MStatistics |}.

(** [Collector.collect]: close the gathered keys under the foreign keys of
    the schema, top down ([Project] <- [Application] <- configs and metrics
    <- [Result] <- its auxiliary rows). *)
Definition collect (db : DB) (seed : Collector) : Collector :=
  let apps := c_applications seed ++
    (Application.pk <$>
       filter (λ x, Application.project x ∈ c_projects seed) (applications db)) in
  let benches := c_benchmarkconfigs seed ++
    (BenchmarkConfig.pk <$>
       filter (λ x, BenchmarkConfig.application x ∈ apps) (benchmarkconfigs db)) in
  let confs := c_dbconfs seed ++
    (DBConf.pk <$>
       filter (λ x, DBConf.application x ∈ apps) (dbconfs db)) in
  let metrics := c_dbmsmetrics seed ++
    (DBMSMetrics.pk <$>
       filter (λ x, DBMSMetrics.application x ∈ apps) (dbmsmetrics db)) in
  let res := c_results seed ++
    (Result.pk <$>
       filter (λ x, Result.application x ∈ apps
                    ∨ Result.benchmark_config x ∈ benches
                    ∨ Result.dbms_config x ∈ confs
                    ∨ Result.dbms_metrics x ∈ metrics) (results db)) in
  {| c_projects := c_projects seed;
     c_applications := apps;
     c_benchmarkconfigs := benches;
     c_dbconfs := confs;
     c_dbmsmetrics := metrics;
     c_results := res;
     c_resultdata := c_resultdata seed ++
       (ResultData.pk <$> filter (λ x, ResultData.result x ∈ res) (resultdata db));
     c_tasks := c_tasks seed ++
       (Task.pk <$> filter (λ x, Task.result x ∈ res) (tasks db));
     c_statistics := c_statistics seed ++
       (Statistics.pk <$> filter (λ x, Statistics.result x ∈ res) (statistics db)) |}.

(** The rows of a table a batch of keys leaves in place, and the journal
    entries of the rows it removes. *)
Definition kept {A} (pk : A → Z) (ks : list Z) (rows : list A) : list A :=
  filter (λ x, pk x ∉ ks) rows.

Definition gone {A} (m : Model) (pk : A → Z) (ks : list Z) (rows : list A)
  : list (Model * Z) :=
  (λ x, (m, pk x)) <$> filter (λ x, pk x ∈ ks) rows.

(** The journal segment a batch of the collector writes: one group of
    entries per model, dependents first, so that the rows of [Application] go
    after everything that points to them and the rows of [Project] go last. *)
Definition Collector_journal (c : Collector) (db : DB) : list (Model * Z) :=
  (gone MResultData ResultData.pk (c_resultdata c) (resultdata db) ++
   gone MTask Task.pk (c_tasks c) (tasks db) ++
   gone MStatistics Statistics.pk (c_statistics c) (statistics db) ++
   gone MResult Result.pk (c_results c) (results db) ++
   gone MDBMSMetrics DBMSMetrics.pk (c_dbmsmetrics c) (dbmsmetrics db) ++
   gone MDBConf DBConf.pk (c_dbconfs c) (dbconfs db) ++
   gone MBenchmarkConfig BenchmarkConfig.pk (c_benchmarkconfigs c)
     (benchmarkconfigs db)) ++
  gone MApplication Application.pk (c_applications c) (applications db) ++
  gone MProject Project.pk (c_projects c) (projects db).

(** [Collector.delete]: every gathered row leaves its table. *)
Definition Collector_delete (c : Collector) (db : DB) : DB :=
  {| knobcatalog := knobcatalog db;
     metriccatalog := metriccatalog db;
     projects := kept Project.pk (c_projects c) (projects db);
     applications := kept Application.pk (c_applications c) (applications db);
     benchmarkconfigs :=
       kept BenchmarkConfig.pk (c_benchmarkconfigs c) (benchmarkconfigs db);
     dbconfs := kept DBConf.pk (c_dbconfs c) (dbconfs db);
     dbmsmetrics := kept DBMSMetrics.pk (c_dbmsmetrics c) (dbmsmetrics db);
     results := kept Result.pk (c_results c) (results db);
     resultdata := kept ResultData.pk (c_resultdata c) (resultdata db);
     tasks := kept Task.pk (c_tasks c) (tasks db);
     statistics := kept Statistics.pk (c_statistics c) (statistics db);
     journal := journal db ++ Collector_journal c db |}.

(** [models.Model.delete] on the instance of model [m] with key [k]. *)
Definition Model_delete (m : Model) (k : Z) (db : DB) : DB :=
  Collector_delete (collect db (instance m k)) db.

(** ** The [delete] overrides *)

(** [Application.delete] (lines 99-109).  A queryset is lazy: the rows of
    [targets], [results] and [expconfs] are fetched when their loop starts,
    from the store as the loops before it left it.  Each [delete] in a loop is
    the base one, the three row classes having no override. *)
Definition Application_delete (self : Application.t) (db : DB) : DB :=
  let a := Application.pk self in
  let targets := filter (λ t, DBConf.application t = a) (dbconfs db) in
  let db1 := foldl (λ s t, Model_delete MDBConf (DBConf.pk t) s) db targets in
  let results_ := filter (λ r, Result.application r = a) (results db1) in
  let db2 := foldl (λ s r, Model_delete MResult (Result.pk r) s) db1 results_ in
  let expconfs :=
    filter (λ x, BenchmarkConfig.application x = a) (benchmarkconfigs db2) in
  let db3 :=
    foldl (λ s x, Model_delete MBenchmarkConfig (BenchmarkConfig.pk x) s)
      db2 expconfs in
  Model_delete MApplication a db3.

(** [Project.delete] (lines 68-72): [x.delete()] is [Application.delete],
    the rows of [apps] being [Application] instances. *)
Definition Project_delete (self : Project.t) (db : DB) : DB :=
  let apps :=
    filter (λ x, Application.project x = Project.pk self) (applications db) in
  let db1 := foldl (λ s x, Application_delete x s) db apps in
  Model_delete MProject (Project.pk self) db1.

(** * Properties of the deletion cascade *)

Section Batches.
Context {A : Type} (m : Model) (pk : A → Z).

Lemma elem_of_kept ks rows r : r ∈ kept pk ks rows ↔ (pk r ∉ ks) ∧ r ∈ rows.
Proof. unfold kept. by rewrite list_elem_of_filter. Qed.

Lemma elem_of_gone ks rows r :
  r ∈ rows → (pk r ∈ ks) → (m, pk r) ∈ gone m pk ks rows.
Proof.
  intros Hr Hk. unfold gone. apply list_elem_of_fmap.
  exists r. split; [done|]. by rewrite list_elem_of_filter.
Qed.

Lemma gone_model ks rows e : e ∈ gone m pk ks rows → e.1 = m.
Proof.
  unfold gone. intros (r & -> & _)%list_elem_of_fmap. done.
Qed.

Lemma kept_nil rows : kept pk [] rows = rows.
Proof.
  unfold kept. induction rows as [|r rows IH]; [done|].
  rewrite filter_cons. case_decide as H; [by rewrite IH|].
  by apply elem_of_nil in H.
Qed.

Lemma gone_nil rows : gone m pk [] rows = [].
Proof.
  unfold gone. induction rows as [|r rows IH]; [done|].
  rewrite filter_cons. case_decide as H; [|done].
  by apply elem_of_nil in H.
Qed.

(** What a table may do while rows are deleted: lose rows, each loss
    entered in the journal segment [l]. *)
Definition table_evolves (l : list (Model * Z)) (old new : list A) : Prop :=
  (∀ r, r ∈ new → r ∈ old) ∧ (∀ r, r ∈ old → r ∈ new ∨ (m, pk r) ∈ l).

Lemma table_evolves_refl rows : table_evolves [] rows rows.
Proof. split; auto. Qed.

Lemma table_evolves_trans l1 l2 t1 t2 t3 :
  table_evolves l1 t1 t2 → table_evolves l2 t2 t3 →
  table_evolves (l1 ++ l2) t1 t3.
Proof.
  intros [S1 J1] [S2 J2]. split; [auto|].
  intros r Hr. destruct (J1 r Hr) as [H2|H2].
  - destruct (J2 r H2) as [H3|H3]; [by left|].
    right. apply elem_of_app. by right.
  - right. apply elem_of_app. by left.
Qed.

Lemma table_evolves_kept l ks rows :
  (∀ e, e ∈ gone m pk ks rows → e ∈ l) →
  table_evolves l rows (kept pk ks rows).
Proof.
  intros Hl. split.
  - intros r Hr. by apply elem_of_kept in Hr as [_ ?].
  - intros r Hr. destruct (decide (pk r ∈ ks)) as [Hk|Hk].
    + right. apply Hl. by apply elem_of_gone.
    + left. by apply elem_of_kept.
Qed.
End Batches.

(** A store evolves into another, with journal segment [l], when the
    catalogs are untouched and every table only loses rows, each entered in
    [l]. *)
Record evolves (l : list (Model * Z)) (db db' : DB) : Prop := {
  ev_journal : journal db' = journal db ++ l;
  ev_knobcatalog : knobcatalog db' = knobcatalog db;
  ev_metriccatalog : metriccatalog db' = metriccatalog db;
  ev_projects :
    table_evolves MProject Project.pk l (projects db) (projects db');
  ev_applications :
    table_evolves MApplication Application.pk l
      (applications db) (applications db');
  ev_benchmarkconfigs :
    table_evolves MBenchmarkConfig BenchmarkConfig.pk l
      (benchmarkconfigs db) (benchmarkconfigs db');
  ev_dbconfs :
    table_evolves MDBConf DBConf.pk l (dbconfs db) (dbconfs db');
  ev_dbmsmetrics :
    table_evolves MDBMSMetrics DBMSMetrics.pk l
      (dbmsmetrics db) (dbmsmetrics db');
  ev_results :
    table_evolves MResult Result.pk l (results db) (results db');
  ev_resultdata :
    table_evolves MResultData ResultData.pk l
      (resultdata db) (resultdata db');
  ev_tasks : table_evolves MTask Task.pk l (tasks db) (tasks db');
  ev_statistics :
    table_evolves MStatistics Statistics.pk l
      (statistics db) (statistics db')
}.

Lemma evolves_refl db : evolves [] db db.
Proof.
  split; try apply table_evolves_refl; try reflexivity.
  by rewrite app_nil_r.
Qed.

Lemma evolves_trans l1 l2 db1 db2 db3 :
  evolves l1 db1 db2 → evolves l2 db2 db3 → evolves (l1 ++ l2) db1 db3.
Proof.
  intros [] []. split; try (eapply table_evolves_trans; eassumption);
    try congruence.
  rewrite app_assoc. congruence.
Qed.

Lemma Collector_delete_evolves c db :
  evolves (Collector_journal c db) db (Collector_delete c db).
Proof.
  split; try reflexivity; simpl;
    apply table_evolves_kept; intros e He; unfold Collector_journal;
    rewrite !elem_of_app; tauto.
Qed.

Lemma Model_delete_evolves m k db :
  ∃ l, evolves l db (Model_delete m k db).
Proof. eexists. apply Collector_delete_evolves. Qed.

Lemma foldl_evolves {A} (f : DB → A → DB) (rows : list A) :
  (∀ s x, ∃ l, evolves l s (f s x)) →
  ∀ db, ∃ l, evolves l db (foldl f db rows).
Proof.
  intros Hf. induction rows as [|x rows IH]; intros db; simpl.
  - exists []. apply evolves_refl.
  - destruct (Hf db x) as [l1 H1]. destruct (IH (f db x)) as [l2 H2].
    exists (l1 ++ l2). by eapply evolves_trans.
Qed.

(** *** What the collector gathers *)

Lemma filter_elem_of_nil {A} (f : A → Z) (rows : list A) :
  filter (λ x, f x ∈ []) rows = [].
Proof.
  induction rows as [|r rows IH]; [done|].
  rewrite filter_cons. case_decide as H; [|done]. by apply elem_of_nil in H.
Qed.

Lemma elem_of_pks {A} (pk : A → Z) (P : A → Prop) `{∀ x, Decision (P x)}
    (seed : list Z) (rows : list A) (r : A) :
  r ∈ rows → P r → pk r ∈ seed ++ (pk <$> filter P rows).
Proof.
  intros Hr HP. apply elem_of_app. right. apply list_elem_of_fmap.
  exists r. split; [done|]. by rewrite list_elem_of_filter.
Qed.

Lemma collect_applications db seed :
  c_applications (collect db seed) =
  c_applications seed ++
    (Application.pk <$>
       filter (λ x, Application.project x ∈ c_projects seed) (applications db)).
Proof. reflexivity. Qed.

(** Store [db] holds no row of application [a]: neither the application nor
    a configuration, metrics snapshot, result or benchmark that points to
    it. *)
Record cleared (a : Z) (db : DB) : Prop := {
  cl_dbconfs : ∀ t, t ∈ dbconfs db → DBConf.application t ≠ a;
  cl_dbmsmetrics : ∀ m, m ∈ dbmsmetrics db → DBMSMetrics.application m ≠ a;
  cl_results : ∀ r, r ∈ results db → Result.application r ≠ a;
  cl_benchmarkconfigs :
    ∀ x, x ∈ benchmarkconfigs db → BenchmarkConfig.application x ≠ a;
  cl_applications : ∀ x, x ∈ applications db → Application.pk x ≠ a
}.

Lemma cleared_evolves l a db db' : evolves l db db' → cleared a db → cleared a db'.
Proof.
  intros [] []. split; intros r Hr.
  - apply cl_dbconfs0. by apply ev_dbconfs0.
  - apply cl_dbmsmetrics0. by apply ev_dbmsmetrics0.
  - apply cl_results0. by apply ev_results0.
  - apply cl_benchmarkconfigs0. by apply ev_benchmarkconfigs0.
  - apply cl_applications0. by apply ev_applications0.
Qed.

(** The cascade of the base [delete] clears every gathered application. *)
Lemma Collector_delete_cleared seed db a :
  a ∈ c_applications (collect db seed) →
  cleared a (Collector_delete (collect db seed) db).
Proof.
  intros Ha. split; simpl; intros r [Hk Hr]%elem_of_kept Heq; apply Hk.
  - apply elem_of_pks; [done|]. by rewrite Heq.
  - apply elem_of_pks; [done|]. by rewrite Heq.
  - apply elem_of_pks; [done|]. left. by rewrite Heq.
  - apply elem_of_pks; [done|]. by rewrite Heq.
  - by rewrite Heq.
Qed.

Lemma Model_delete_Application_cleared a db :
  cleared a (Model_delete MApplication a db).
Proof.
  apply Collector_delete_cleared. simpl. constructor.
Qed.

(** Deleting a row below [Application] leaves the applications and the
    projects alone. *)
Definition below_Application (m : Model) : Prop :=
  m ≠ MProject ∧ m ≠ MApplication.

Lemma Model_delete_below m k db :
  below_Application m →
  applications (Model_delete m k db) = applications db
  ∧ projects (Model_delete m k db) = projects db
  ∧ dbmsmetrics (Model_delete m k db) =
      kept DBMSMetrics.pk (if m is MDBMSMetrics then [k] else [])
        (dbmsmetrics db).
Proof.
  intros [H1 H2]. destruct m; try done;
    unfold Model_delete; simpl; rewrite !filter_elem_of_nil; simpl;
    rewrite ?filter_elem_of_nil; simpl; by rewrite !kept_nil.
Qed.

(** A loop of base deletions of rows below [Application], as the three loops
    of [Application.delete] are. *)
Lemma loop_below {A} (m : Model) (pk : A → Z) (rows : list A) (db : DB) :
  below_Application m → m ≠ MDBMSMetrics →
  let db' := foldl (λ s x, Model_delete m (pk x) s) db rows in
  (∃ l, evolves l db db')
  ∧ applications db' = applications db
  ∧ projects db' = projects db
  ∧ dbmsmetrics db' = dbmsmetrics db.
Proof.
  intros Hm Hm'. simpl. split.
  { apply foldl_evolves. intros s x. apply Model_delete_evolves. }
  revert db. induction rows as [|x rows IH]; intros db; simpl; [done|].
  destruct (IH (Model_delete m (pk x) db)) as (-> & -> & ->).
  destruct (Model_delete_below m (pk x) db Hm) as (-> & -> & ->).
  split; [done|]. split; [done|]. destruct m; try done; apply kept_nil.
Qed.

(** The store after the three loops of [Application.delete], before the base
    [delete]. *)
Definition Application_delete_loops (self : Application.t) (db : DB) : DB :=
  let a := Application.pk self in
  let db1 :=
    foldl (λ s t, Model_delete MDBConf (DBConf.pk t) s) db
      (filter (λ t, DBConf.application t = a) (dbconfs db)) in
  let db2 :=
    foldl (λ s r, Model_delete MResult (Result.pk r) s) db1
      (filter (λ r, Result.application r = a) (results db1)) in
  foldl (λ s x, Model_delete MBenchmarkConfig (BenchmarkConfig.pk x) s) db2
    (filter (λ x, BenchmarkConfig.application x = a) (benchmarkconfigs db2)).

Lemma Application_delete_unfold self db :
  Application_delete self db =
  Model_delete MApplication (Application.pk self)
    (Application_delete_loops self db).
Proof. reflexivity. Qed.

Lemma Application_delete_loops_spec self db :
  let db3 := Application_delete_loops self db in
  (∃ l, evolves l db db3)
  ∧ applications db3 = applications db
  ∧ projects db3 = projects db
  ∧ dbmsmetrics db3 = dbmsmetrics db.
Proof.
  unfold Application_delete_loops. simpl.
  set (a := Application.pk self).
  set (l1 := filter (λ t, DBConf.application t = a) (dbconfs db)).
  destruct (loop_below MDBConf DBConf.pk l1 db) as ([j1 E1] & A1 & P1 & M1);
    [by split|done|].
  set (db1 := foldl _ db l1) in *.
  set (l2 := filter (λ r, Result.application r = a) (results db1)).
  destruct (loop_below MResult Result.pk l2 db1) as ([j2 E2] & A2 & P2 & M2);
    [by split|done|].
  set (db2 := foldl _ db1 l2) in *.
  set (l3 := filter _ (benchmarkconfigs db2)).
  destruct (loop_below MBenchmarkConfig BenchmarkConfig.pk l3 db2)
    as ([j3 E3] & A3 & P3 & M3); [by split|done|].
  set (db3 := foldl _ db2 l3) in *.
  split; [|split; [|split]]; try congruence.
  exists ((j1 ++ j2) ++ j3).
  eapply evolves_trans; [eapply evolves_trans|]; eassumption.
Qed.

(** The journal of the base [delete] of an application: the dependents, then
    the application. *)
Lemma Model_delete_Application_journal a db :
  ∃ l, Collector_journal (collect db (instance MApplication a)) db =
       l ++ gone MApplication Application.pk [a] (applications db).
Proof.
  eexists. unfold Collector_journal. simpl c_projects. simpl c_applications.
  rewrite filter_elem_of_nil. simpl fmap.
  rewrite gone_nil, app_nil_r. reflexivity.
Qed.

Lemma Model_delete_Project_journal p db :
  ∃ l, Collector_journal (collect db (instance MProject p)) db =
       l ++ gone MProject Project.pk [p] (projects db).
Proof.
  eexists. unfold Collector_journal. simpl c_projects.
  rewrite !app_assoc. reflexivity.
Qed.

(** What [Application.delete] does to the store. *)
Lemma Application_delete_spec self db :
  let a := Application.pk self in
  let db' := Application_delete self db in
  ∃ l,
    evolves (l ++ gone MApplication Application.pk [a] (applications db)) db db'
    ∧ cleared a db'
    ∧ projects db' = projects db.
Proof.
  simpl. rewrite Application_delete_unfold.
  destruct (Application_delete_loops_spec self db) as ([j E] & A & P & _).
  set (db3 := Application_delete_loops self db) in *.
  destruct (Model_delete_Application_journal (Application.pk self) db3)
    as [l Hl].
  exists (j ++ l). split; [|split].
  - rewrite <- app_assoc, <- A, <- Hl. eapply evolves_trans; [exact E|].
    apply Collector_delete_evolves.
  - apply Model_delete_Application_cleared.
  - rewrite <- P. unfold Model_delete. simpl. rewrite kept_nil. done.
Qed.

(** A row that left its table is in the journal, and not in a tail of the
    journal that holds rows of other models only. *)
Lemma journal_entry_before {A} (m : Model) (pk : A → Z)
    (l tail : list (Model * Z)) (old new : list A) (r : A) :
  table_evolves m pk (l ++ tail) old new →
  (∀ e, e ∈ tail → e.1 ≠ m) →
  r ∈ old → r ∉ new → (m, pk r) ∈ l.
Proof.
  intros [_ J] Htail Hold Hnew. destruct (J r Hold) as [?|He]; [done|].
  apply elem_of_app in He as [?|He]; [done|]. by apply Htail in He.
Qed.

Lemma foldl_Application_delete (rows : list Application.t) (db : DB) :
  let db1 := foldl (λ s x, Application_delete x s) db rows in
  (∃ l, evolves l db db1)
  ∧ projects db1 = projects db
  ∧ ∀ x, x ∈ rows → cleared (Application.pk x) db1.
Proof.
  simpl. revert db. induction rows as [|x rows IH]; intros db; simpl.
  - split; [exists []; apply evolves_refl|]. split; [done|].
    intros x Hx. by apply elem_of_nil in Hx.
  - destruct (Application_delete_spec x db) as (l1 & E1 & C1 & P1).
    cbv zeta in E1, C1, P1.
    destruct (IH (Application_delete x db)) as ([l2 E2] & P2 & C2).
    split; [|split].
    + eexists. eapply evolves_trans; eassumption.
    + by rewrite P2.
    + intros y [->|Hy]%elem_of_cons; [|by apply C2].
      eapply cleared_evolves; eassumption.
Qed.

(** ** C1 and C2: the cascades *)

(** C1. [Application.delete] leaves no [DBConf], [DBMSMetrics], [Result] or
    [BenchmarkConfig] row whose [application] is the application deleted, and
    no row of the application; every such row of the store it was called on
    is entered in the journal before the application is, the entry of the
    application being the last one.  (The [DBConf], [Result] and
    [BenchmarkConfig] rows go in the three loops, the [DBMSMetrics] rows in
    the cascade of the base [delete].) *)
Theorem Application_delete_cascades (self : Application.t) (db : DB) :
  let a := Application.pk self in
  let db' := Application_delete self db in
  ((∀ t, t ∈ dbconfs db' → DBConf.application t ≠ a)
   ∧ (∀ m, m ∈ dbmsmetrics db' → DBMSMetrics.application m ≠ a)
   ∧ (∀ r, r ∈ results db' → Result.application r ≠ a)
   ∧ (∀ x, x ∈ benchmarkconfigs db' → BenchmarkConfig.application x ≠ a)
   ∧ (∀ x, x ∈ applications db' → Application.pk x ≠ a))
  ∧ ∃ l,
      journal db' =
        journal db ++ l ++ gone MApplication Application.pk [a] (applications db)
      ∧ (∀ t, t ∈ dbconfs db → DBConf.application t = a →
           (MDBConf, DBConf.pk t) ∈ l)
      ∧ (∀ m, m ∈ dbmsmetrics db → DBMSMetrics.application m = a →
           (MDBMSMetrics, DBMSMetrics.pk m) ∈ l)
      ∧ (∀ r, r ∈ results db → Result.application r = a →
           (MResult, Result.pk r) ∈ l)
      ∧ (∀ x, x ∈ benchmarkconfigs db → BenchmarkConfig.application x = a →
           (MBenchmarkConfig, BenchmarkConfig.pk x) ∈ l).
Proof.
  intros a db'.
  destruct (Application_delete_spec self db) as (l & E & C & _).
  fold a db' in E, C. destruct C as [C1 C2 C3 C4 C5].
  split; [by repeat split|].
  exists l. destruct E.
  assert (∀ e, e ∈ gone MApplication Application.pk [a] (applications db) →
               e.1 = MApplication) as Htail by apply gone_model.
  split; [done|].
  repeat split; intros r Hr Heq;
    eapply journal_entry_before; try eassumption;
    try (intros e He; rewrite (Htail e He); done);
    intros Hin; [by apply C1 in Hin|by apply C2 in Hin
                |by apply C3 in Hin|by apply C4 in Hin].
Qed.

(** X1. The three loops of [Application.delete] remove no [DBMSMetrics] row:
    the metrics snapshots of the application are left to the cascade of the
    base [delete]. *)
Theorem Application_delete_loops_keep_metrics
    (self : Application.t) (db : DB) :
  dbmsmetrics (Application_delete_loops self db) = dbmsmetrics db
  ∧ Application_delete self db =
    Model_delete MApplication (Application.pk self)
      (Application_delete_loops self db).
Proof.
  split; [|reflexivity].
  by destruct (Application_delete_loops_spec self db) as (_ & _ & _ & ?).
Qed.

(** C2. [Project.delete] leaves no [Application] row whose [project] is the
    project deleted, no [DBConf], [Result] or [BenchmarkConfig] row of such an
    application, and no row of the project; every such application and child
    row of the store it was called on is entered in the journal before the
    project is, the entry of the project being the last one. *)
Theorem Project_delete_cascades (self : Project.t) (db : DB) :
  let p := Project.pk self in
  let db' := Project_delete self db in
  ((∀ x, x ∈ applications db' → Application.project x ≠ p)
   ∧ (∀ x, x ∈ applications db → Application.project x = p →
        (∀ t, t ∈ dbconfs db' → DBConf.application t ≠ Application.pk x)
        ∧ (∀ r, r ∈ results db' → Result.application r ≠ Application.pk x)
        ∧ (∀ b, b ∈ benchmarkconfigs db' →
             BenchmarkConfig.application b ≠ Application.pk x))
   ∧ (∀ q, q ∈ projects db' → Project.pk q ≠ p))
  ∧ ∃ l,
      journal db' =
        journal db ++ l ++ gone MProject Project.pk [p] (projects db)
      ∧ ∀ x, x ∈ applications db → Application.project x = p →
          (MApplication, Application.pk x) ∈ l
          ∧ (∀ t, t ∈ dbconfs db → DBConf.application t = Application.pk x →
               (MDBConf, DBConf.pk t) ∈ l)
          ∧ (∀ r, r ∈ results db → Result.application r = Application.pk x →
               (MResult, Result.pk r) ∈ l)
          ∧ (∀ b, b ∈ benchmarkconfigs db →
               BenchmarkConfig.application b = Application.pk x →
               (MBenchmarkConfig, BenchmarkConfig.pk b) ∈ l).
Proof.
  intros p db'. unfold Project_delete in db'.
  set (apps := filter (λ x, Application.project x = p) (applications db)) in *.
  destruct (foldl_Application_delete apps db) as ([l1 E1] & P1 & C1).
  set (db1 := foldl _ db apps) in *.
  assert (Happs : ∀ x, x ∈ applications db → Application.project x = p →
                       cleared (Application.pk x) db1).
  { intros x Hx Hp. apply C1. unfold apps. by rewrite list_elem_of_filter. }
  pose proof (Collector_delete_evolves (collect db1 (instance MProject p)) db1)
    as E2. fold (Model_delete MProject p db1) in E2. fold db' in E2.
  destruct (Model_delete_Project_journal p db1) as [l2 Hl2].
  rewrite Hl2, P1 in E2.
  pose proof (evolves_trans _ _ _ _ _ E1 E2) as E. rewrite app_assoc in E.
  split; [split; [|split]|].
  - intros x [Hk Hx]%elem_of_kept Hp. apply Hk.
    rewrite collect_applications. apply elem_of_pks; [done|].
    simpl. rewrite Hp. constructor.
  - intros x Hx Hp.
    destruct (cleared_evolves _ _ _ _ E2 (Happs x Hx Hp)) as [K1 _ K3 K4 _].
    by repeat split.
  - intros q [Hk Hq]%elem_of_kept Hp. apply Hk. simpl. rewrite Hp. constructor.
  - exists (l1 ++ l2). destruct E.
    split; [done|]. intros x Hx Hp.
    destruct (cleared_evolves _ _ _ _ E2 (Happs x Hx Hp)) as [K1 _ K3 K4 K5].
    assert (∀ e, e ∈ gone MProject Project.pk [p] (projects db) →
                 e.1 = MProject) as Htail by apply gone_model.
    repeat split; try intros r Hr Heq;
      eapply journal_entry_before; try eassumption;
      try (intros e He; rewrite (Htail e He); done);
      intros Hin; [by apply K5 in Hin|by apply K1 in Hin
                  |by apply K3 in Hin|by apply K4 in Hin].
Qed.

(** * Validation and the view helpers *)

(** ** Python values and exceptions *)

(** The payload of a [ValidationError]: one message, as the overrides of
    this file raise it, or the errors per field, as [Model.clean_fields]
    gathers them. *)
Inductive validation_payload :=
| Message (text : string)
| FieldErrors (errors : list (string * list string)).

(** The exceptions the methods of the file can raise. *)
Inductive exn :=
| ValidationError (payload : validation_payload)
| KeyError (key : string)
| TypeError
| ValueError
| ZeroDivisionError
| OverflowError.

(** A call returns or raises. *)
Inductive result (A : Type) :=
| Ok (a : A)
| Raise (e : exn).
Arguments Ok {A} a.
Arguments Raise {A} e.

#[export] Instance result_ret : MRet result := λ A a, Ok a.
#[export] Instance result_bind : MBind result := λ A B f r,
  match r with
  | Ok a => f a
  | Raise e => Raise e
  end.

(** What [json.loads] builds, over a type [F] of floats: [None], [bool],
    [int], [float], [unicode], [list] and [dict] with string keys.  The
    placeholder ['--'] of the view helpers is the string [PStr "--"]. *)
Inductive pyval (F : Type) :=
| PNone
| PBool (b : bool)
| PInt (n : Z)
| PFloat (x : F)
| PStr (s : string)
| PList (l : list (pyval F))
| PDict (d : gmap string (pyval F)).
Arguments PNone {F}.
Arguments PBool {F} b.
Arguments PInt {F} n.
Arguments PFloat {F} x.
Arguments PStr {F} s.
Arguments PList {F} l.
Arguments PDict {F} d.

(** Python's [float]: binary floating point, kept behind an interface since
    nothing below depends on how it rounds.  [float_of_int n] is [float(n)]
    for an [int], [None] when [n] is too large ([OverflowError]);
    [float_of_str s] is [float(s)] for a string, [None] when [s] is no float
    literal ([ValueError]); [float_div x y] is [x / y] for a non-zero [y]. *)
Class PyFloat (F : Type) := {
  float_of_int : Z → option F;
  float_of_str : string → option F;
  float_div : F → F → F
}.

(** An [OrderedDict] with string keys: the items in insertion order.
    Assigning to a key already present keeps its place. *)
Fixpoint od_setitem {V} (k : string) (v : V) (d : list (string * V))
  : list (string * V) :=
  match d with
  | [] => [(k, v)]
  | (k', v') :: d' =>
      if decide (k' = k) then (k, v) :: d' else (k', v') :: od_setitem k v d'
  end.

Fixpoint od_getitem {V} (k : string) (d : list (string * V)) : option V :=
  match d with
  | [] => None
  | (k', v') :: d' => if decide (k' = k) then Some v' else od_getitem k d'
  end.

(** [models.Model.clean_fields]: Django cleans every field not in [exclude]
    with the validators of its declaration; [field_errors] is the errors it
    gathers, per field, and the call raises a [ValidationError] holding them
    when there is one. *)
Class Fields (A : Type) :=
  field_errors : A → option (list string) → list (string * list string).

Definition Model_clean_fields {A} `{Fields A}
    (self : A) (exclude : option (list string)) : result unit :=
  match field_errors self exclude with
  | [] => Ok tt
  | errors => Raise (ValidationError (FieldErrors errors))
  end.

Section Website.
Context {F : Type} `{PyFloat F}.
Context `{Fields MetricCatalog.t} `{Fields BenchmarkConfig.t}
  `{Fields DBMSMetrics.t}.

(** [MetricType.COUNTER] and [VarType.INTEGER], of [website/types.py], and
    [JSONUtil.loads], of [website/utils.py]: the parse of a JSON text, [None]
    when the text is not JSON ([ValueError]). *)
Variables MetricType_COUNTER VarType_INTEGER : Z.
Variable JSONUtil_loads : string → option (pyval F).

Definition loads (text : string) : result (pyval F) :=
  match JSONUtil_loads text with
  | Some v => Ok v
  | None => Raise ValueError
  end.

(** [config[key]]: a [KeyError] on a [dict] without the key, a [TypeError]
    on a value that is no [dict] (a list or a string takes no string index,
    the others no index at all). *)
Definition py_getitem (config : pyval F) (key : string) : result (pyval F) :=
  match config with
  | PDict d =>
      match d !! key with
      | Some v => Ok v
      | None => Raise (KeyError key)
      end
  | _ => Raise TypeError
  end.

(** [float(v)]. *)
Definition py_float (v : pyval F) : result F :=
  match v with
  | PFloat x => Ok x
  | PInt n =>
      match float_of_int n with
      | Some x => Ok x
      | None => Raise OverflowError
      end
  | PBool b =>
      match float_of_int (if b then 1 else 0) with
      | Some x => Ok x
      | None => Raise OverflowError
      end
  | PStr s =>
      match float_of_str s with
      | Some x => Ok x
      | None => Raise ValueError
      end
  | PNone | PList _ | PDict _ => Raise TypeError
  end.

(** [x / n] for a float [x] and an [int] [n]: [n] is converted to a float,
    and a zero divisor raises. *)
Definition float_truediv (x : F) (n : Z) : result F :=
  if decide (n = 0) then Raise ZeroDivisionError
  else match float_of_int n with
       | Some y => Ok (float_div x y)
       | None => Raise OverflowError
       end.

(** ** [clean_fields] *)

(** [MetricCatalog.clean_fields] (lines 53-56). *)
Definition MetricCatalog_clean_fields
    (self : MetricCatalog.t) (exclude : option (list string)) : result unit :=
  _ ← Model_clean_fields self exclude;
  if decide (MetricCatalog.metric_type self = MetricType_COUNTER
             ∧ MetricCatalog.vartype self ≠ VarType_INTEGER)
  then Raise (ValidationError (Message "Counter metrics must be integers."))
  else Ok tt.

(** [BenchmarkConfig.clean_fields] (lines 134-137). *)
Definition BenchmarkConfig_clean_fields
    (self : BenchmarkConfig.t) (exclude : option (list string)) : result unit :=
  _ ← Model_clean_fields self exclude;
  if decide (BenchmarkConfig.time self ≤ 0)
  then Raise (ValidationError (Message "Time must be greater than 0."))
  else Ok tt.

(** [DBMSMetrics.clean_fields] (lines 173-176). *)
Definition DBMSMetrics_clean_fields
    (self : DBMSMetrics.t) (exclude : option (list string)) : result unit :=
  _ ← Model_clean_fields self exclude;
  if decide (DBMSMetrics.execution_time self ≤ 0)
  then Raise (ValidationError (Message "Execution time must be greater than 0."))
  else Ok tt.

(** ** The view helpers *)

(** The loop of [DBConf.get_tuning_configuration] (lines 155-159), over the
    rows the catalog query returned. *)
Fixpoint tuning_loop (config : pyval F) (include_all : bool)
    (param_catalog : list KnobCatalog.t) (params : gmap string (pyval F))
  : result (gmap string (pyval F)) :=
  match param_catalog with
  | [] => Ok params
  | p :: rest =>
      if KnobCatalog.tunable p then
        v ← py_getitem config (KnobCatalog.name p);
        tuning_loop config include_all rest (<[KnobCatalog.name p := v]> params)
      else if include_all then
        tuning_loop config include_all rest
          (<[KnobCatalog.name p := PStr "--"]> params)
      else tuning_loop config include_all rest params
  end.

(** [DBConf.get_tuning_configuration] (lines 151-160). *)
Definition get_tuning_configuration
    (db : DB) (self : DBConf.t) (include_all : bool)
  : result (gmap string (pyval F)) :=
  config ← loads (DBConf.configuration self);
  let param_catalog :=
    filter (λ p, KnobCatalog.dbms p = DBConf.dbms self) (knobcatalog db) in
  tuning_loop config include_all param_catalog ∅.

(** The loop of [DBMSMetrics.get_normalized_configuration] (lines 182-186).
    In [float(config[m.name]) / self.execution_time] the lookup comes first,
    then the conversion, then the division. *)
Fixpoint normalized_loop (config : pyval F) (execution_time : Z)
    (include_all : bool) (metric_catalog : list MetricCatalog.t)
    (norm_metrics : list (string * pyval F))
  : result (list (string * pyval F)) :=
  match metric_catalog with
  | [] => Ok norm_metrics
  | m :: rest =>
      if decide (MetricCatalog.metric_type m = MetricType_COUNTER) then
        v ← py_getitem config (MetricCatalog.name m);
        x ← py_float v;
        q ← float_truediv x execution_time;
        normalized_loop config execution_time include_all rest
          (od_setitem (MetricCatalog.name m) (PFloat q) norm_metrics)
      else if include_all then
        normalized_loop config execution_time include_all rest
          (od_setitem (MetricCatalog.name m) (PStr "--") norm_metrics)
      else normalized_loop config execution_time include_all rest norm_metrics
  end.

(** [DBMSMetrics.get_normalized_configuration] (lines 178-187). *)
Definition get_normalized_configuration
    (db : DB) (self : DBMSMetrics.t) (include_all : bool)
  : result (list (string * pyval F)) :=
  config ← loads (DBMSMetrics.configuration self);
  let metric_catalog :=
    filter (λ m, MetricCatalog.dbms m = DBMSMetrics.dbms self)
      (metriccatalog db) in
  normalized_loop config (DBMSMetrics.execution_time self) include_all
    metric_catalog [].

(** * Properties of the view helpers *)

(** Both loops have one shape: an item of the catalog that matches (a
    tunable knob, a counter metric) stores what is computed from the value
    the blob has under its name, any other item stores the placeholder when
    [include_all] is set.  The shape is studied once. *)
Section ViewLoop.
Context {Item M : Type}.
Variable name : Item → string.
Variable matching : Item → bool.
Variable compute : pyval F → result (pyval F).
Variable setitem : string → pyval F → M → M.
Variable getitem : string → M → option (pyval F).
Hypothesis getitem_setitem : ∀ k k' v m,
  getitem k (setitem k' v m) = if decide (k' = k) then Some v else getitem k m.

Fixpoint view_loop (config : pyval F) (include_all : bool)
    (items : list Item) (acc : M) : result M :=
  match items with
  | [] => Ok acc
  | i :: rest =>
      if matching i then
        v ← py_getitem config (name i);
        x ← compute v;
        view_loop config include_all rest (setitem (name i) x acc)
      else if include_all then
        view_loop config include_all rest (setitem (name i) (PStr "--") acc)
      else view_loop config include_all rest acc
  end.

(** The blob serves an item: it has a value under the name of the item, and
    the computation accepts it. *)
Definition served (config : pyval F) (i : Item) : Prop :=
  ∃ v x, py_getitem config (name i) = Ok v ∧ compute v = Ok x.

Lemma view_loop_app config include_all items items' acc :
  view_loop config include_all (items ++ items') acc =
  view_loop config include_all items acc ≫= view_loop config include_all items'.
Proof.
  revert acc. induction items as [|i items IH]; intros acc; simpl; [done|].
  destruct (matching i).
  - destruct (py_getitem config (name i)) as [v|e]; simpl; [|done].
    destruct (compute v) as [x|e]; simpl; [|done]. apply IH.
  - destruct include_all; apply IH.
Qed.

(** The loop returns as soon as the blob serves every matching item, and
    then the result holds the computed value under the name of each matching
    item, the placeholder under the name of each other item when
    [include_all] is set, and what it held before under any other name.  With
    [include_all], no name may be shared by a matching and another item: the
    later of the two would win. *)
Lemma view_loop_returns config include_all items acc :
  (∀ i, i ∈ items → matching i = true → served config i) →
  (include_all = true → ∀ i j, i ∈ items → j ∈ items →
     matching i = true → matching j = false → name i ≠ name j) →
  ∃ res, view_loop config include_all items acc = Ok res
    ∧ (∀ i v x, i ∈ items → matching i = true →
         py_getitem config (name i) = Ok v → compute v = Ok x →
         getitem (name i) res = Some x)
    ∧ (include_all = true → ∀ j, j ∈ items → matching j = false →
         getitem (name j) res = Some (PStr "--"))
    ∧ (∀ k, (∀ i, i ∈ items → matching i = true ∨ include_all = true →
               name i ≠ k) →
         getitem k res = getitem k acc).
Proof.
  induction items as [|i items IH] using rev_ind; intros Hserved Hshare.
  { exists acc. split; [done|]. split; [|split]; try done.
    - intros i v x Hi. by apply elem_of_nil in Hi.
    - intros _ j Hj. by apply elem_of_nil in Hj. }
  destruct IH as (res & Hres & Hm & Ho & Hk).
  { intros j Hj. apply Hserved. apply elem_of_app. by left. }
  { intros Hia j j' Hj Hj'. apply Hshare; [done|..]; apply elem_of_app; by left. }
  assert (Hlast : i ∈ items ++ [i]).
  { apply elem_of_app. right. constructor. }
  rewrite view_loop_app, Hres. simpl.
  destruct (matching i) eqn:Hi.
  - destruct (Hserved i Hlast Hi) as (v & x & Hv & Hx).
    rewrite Hv. simpl. rewrite Hx. simpl.
    eexists. split; [done|]. split; [|split].
    + intros j v' x' Hj Hjm Hv' Hx'. rewrite getitem_setitem.
      case_decide as Hn.
      * rewrite <- Hn in Hv'. congruence.
      * apply elem_of_app in Hj as [Hj|Hj%list_elem_of_singleton];
          [by eapply Hm|congruence].
    + intros Hia j Hj Hjm. rewrite getitem_setitem.
      rewrite decide_False by (by apply Hshare).
      apply elem_of_app in Hj as [Hj|Hj%list_elem_of_singleton];
        [by apply Ho|congruence].
    + intros k Hk'. rewrite getitem_setitem.
      rewrite decide_False by (apply Hk'; [done|by left]).
      apply Hk. intros j Hj. apply Hk'. apply elem_of_app. by left.
  - destruct include_all eqn:Hia.
    + eexists. split; [done|]. split; [|split].
      * intros j v' x' Hj Hjm Hv' Hx'. rewrite getitem_setitem.
        rewrite decide_False
          by (intros Hn; by apply (Hshare eq_refl j i Hj Hlast Hjm Hi)).
        apply elem_of_app in Hj as [Hj|Hj%list_elem_of_singleton];
          [by eapply Hm|congruence].
      * intros _ j Hj Hjm. rewrite getitem_setitem.
        case_decide as Hn; [done|].
        apply elem_of_app in Hj as [Hj|Hj%list_elem_of_singleton];
          [by apply Ho|congruence].
      * intros k Hk'. rewrite getitem_setitem.
        rewrite decide_False by (apply Hk'; [done|by right]).
        apply Hk. intros j Hj. apply Hk'. apply elem_of_app. by left.
    + exists res. split; [done|]. split; [|split].
      * intros j v' x' Hj Hjm Hv' Hx'.
        apply elem_of_app in Hj as [Hj|Hj%list_elem_of_singleton];
          [by eapply Hm|congruence].
      * done.
      * intros k Hk'. apply Hk. intros j Hj. apply Hk'.
        apply elem_of_app. by left.
Qed.

(** A call that returns was served on every matching item. *)
Lemma view_loop_served config include_all items acc res :
  view_loop config include_all items acc = Ok res →
  ∀ i, i ∈ items → matching i = true → served config i.
Proof.
  revert acc. induction items as [|j items IH]; intros acc Hres i Hi Him.
  { by apply elem_of_nil in Hi. }
  simpl in Hres. destruct (matching j) eqn:Hj.
  - destruct (py_getitem config (name j)) as [v|e] eqn:Hv;
      simpl in Hres; [|done].
    destruct (compute v) as [x|e] eqn:Hx; simpl in Hres; [|done].
    apply elem_of_cons in Hi as [->|Hi]; [by exists v, x|by eapply IH].
  - apply elem_of_cons in Hi as [->|Hi]; [congruence|].
    destruct include_all; by eapply IH.
Qed.

(** A call that raises does so at a matching item: in the lookup of its
    name, or in the computation on the value found. *)
Lemma view_loop_raises config include_all items acc e :
  view_loop config include_all items acc = Raise e →
  ∃ i, i ∈ items ∧ matching i = true
    ∧ (py_getitem config (name i) = Raise e
       ∨ ∃ v, py_getitem config (name i) = Ok v ∧ compute v = Raise e).
Proof.
  revert acc. induction items as [|j items IH]; intros acc Hres; [done|].
  simpl in Hres.
  assert (Hrest : ∀ acc', view_loop config include_all items acc' = Raise e →
    ∃ i, i ∈ j :: items ∧ matching i = true
      ∧ (py_getitem config (name i) = Raise e
         ∨ ∃ v, py_getitem config (name i) = Ok v ∧ compute v = Raise e)).
  { intros acc' (i & Hi & Hrest)%IH. exists i. split; [by right|done]. }
  destruct (matching j) eqn:Hj.
  - destruct (py_getitem config (name j)) as [v|e'] eqn:Hv; simpl in Hres.
    + destruct (compute v) as [x|e'] eqn:Hx; simpl in Hres; [by eapply Hrest|].
      exists j. split; [by left|]. split; [done|]. right. exists v.
      split; [done|congruence].
    + exists j. split; [by left|]. split; [done|]. left. congruence.
  - destruct include_all; by eapply Hrest.
Qed.

(** A call returns or raises; it raises as soon as some matching item is
    not served. *)
Lemma view_loop_unserved config include_all items acc i :
  i ∈ items → matching i = true → ¬ served config i →
  ∃ e, view_loop config include_all items acc = Raise e.
Proof.
  intros Hi Him Hns.
  destruct (view_loop config include_all items acc) as [res|e] eqn:Hres;
    [|by exists e].
  destruct Hns. by eapply view_loop_served.
Qed.

(** A call served on every matching item returns. *)
Lemma view_loop_total config include_all items acc :
  (∀ i, i ∈ items → matching i = true → served config i) →
  ∃ res, view_loop config include_all items acc = Ok res.
Proof.
  intros Hserved.
  destruct (view_loop config include_all items acc) as [res|e] eqn:Hres;
    [by exists res|].
  apply view_loop_raises in Hres as (i & Hi & Him & Hwhy).
  destruct (Hserved i Hi Him) as (v & x & Hv & Hx).
  destruct Hwhy as [?|(v' & ? & ?)]; congruence.
Qed.

End ViewLoop.

(** ** The two loops are instances of the shape *)

(** What the loop of [get_normalized_configuration] computes from the value
    stored for a counter metric. *)
Definition normalized (execution_time : Z) (v : pyval F) : result (pyval F) :=
  x ← py_float v;
  q ← float_truediv x execution_time;
  Ok (PFloat q).

Definition is_counter (m : MetricCatalog.t) : bool :=
  bool_decide (MetricCatalog.metric_type m = MetricType_COUNTER).

Lemma tuning_loop_view config include_all items acc :
  tuning_loop config include_all items acc =
  view_loop KnobCatalog.name KnobCatalog.tunable Ok
    (λ k v params, <[k:=v]> params) config include_all items acc.
Proof.
  revert acc. induction items as [|p items IH]; intros acc; simpl; [done|].
  destruct (KnobCatalog.tunable p).
  - destruct (py_getitem config (KnobCatalog.name p)); simpl; [apply IH|done].
  - destruct include_all; apply IH.
Qed.

Lemma normalized_loop_view config t include_all items acc :
  normalized_loop config t include_all items acc =
  view_loop MetricCatalog.name is_counter (normalized t) od_setitem
    config include_all items acc.
Proof.
  revert acc. induction items as [|m items IH]; intros acc; simpl; [done|].
  unfold is_counter, normalized. case_decide as Hm.
  - rewrite bool_decide_eq_true_2 by done.
    destruct (py_getitem config (MetricCatalog.name m)) as [v|]; simpl; [|done].
    destruct (py_float v) as [x|]; simpl; [|done].
    destruct (float_truediv x t) as [q|]; simpl; [apply IH|done].
  - rewrite bool_decide_eq_false_2 by done. destruct include_all; apply IH.
Qed.

Lemma od_getitem_setitem {V} (k k' : string) (v : V) (d : list (string * V)) :
  od_getitem k (od_setitem k' v d) =
  if decide (k' = k) then Some v else od_getitem k d.
Proof.
  induction d as [|[k0 v0] d IH]; simpl.
  - by repeat case_decide.
  - repeat (case_decide; simpl; subst); try done; try congruence.
Qed.

Lemma py_getitem_PDict (cfg : gmap string (pyval F)) k v :
  py_getitem (PDict cfg) k = Ok v ↔ cfg !! k = Some v.
Proof. unfold py_getitem. destruct (cfg !! k); split; congruence. Qed.


Lemma py_float_raises v e :
  py_float v = Raise e → e = TypeError ∨ e = ValueError ∨ e = OverflowError.
Proof.
  destruct v as [|[]| | | | |]; simpl; repeat case_match;
    intros; simplify_eq; auto.
Qed.

Lemma float_truediv_raises x n e :
  float_truediv x n = Raise e →
  (e = ZeroDivisionError ∧ n = 0) ∨ (e = OverflowError ∧ n ≠ 0).
Proof.
  unfold float_truediv. case_decide; [intros; simplify_eq; by left|].
  case_match; intros; simplify_eq. by right.
Qed.

(** ** C5-C7: validation *)

(** C5. [MetricCatalog.clean_fields] raises a [ValidationError] on a record
    whose [metric_type] is [COUNTER] and whose [vartype] is not [INTEGER]
    (its own, with the message of line 56, when the inherited checks pass),
    and on any other record does what the inherited [clean_fields] does: the
    check adds no error. *)
Theorem MetricCatalog_clean_fields_counter
    (self : MetricCatalog.t) (exclude : option (list string)) :
  (MetricCatalog.metric_type self = MetricType_COUNTER
   ∧ MetricCatalog.vartype self ≠ VarType_INTEGER →
   (∃ payload, MetricCatalog_clean_fields self exclude =
               Raise (ValidationError payload))
   ∧ (Model_clean_fields self exclude = Ok tt →
      MetricCatalog_clean_fields self exclude =
      Raise (ValidationError (Message "Counter metrics must be integers."))))
  ∧ (¬ (MetricCatalog.metric_type self = MetricType_COUNTER
        ∧ MetricCatalog.vartype self ≠ VarType_INTEGER) →
     MetricCatalog_clean_fields self exclude = Model_clean_fields self exclude).
Proof.
  unfold MetricCatalog_clean_fields, Model_clean_fields.
  split; intros Hc.
  - rewrite decide_True by done.
    destruct (field_errors self exclude); simpl; eauto. split; [eauto|done].
  - rewrite decide_False by done.
    by destruct (field_errors self exclude).
Qed.

(** C6. When the inherited checks pass, [DBMSMetrics.clean_fields] raises a
    [ValidationError] if and only if [execution_time <= 0] (the one of line
    176), and returns on a positive [execution_time]. *)
Theorem DBMSMetrics_clean_fields_positive
    (self : DBMSMetrics.t) (exclude : option (list string)) :
  Model_clean_fields self exclude = Ok tt →
  ((∃ payload, DBMSMetrics_clean_fields self exclude =
               Raise (ValidationError payload))
   ↔ DBMSMetrics.execution_time self ≤ 0)
  ∧ (DBMSMetrics.execution_time self ≤ 0 →
     DBMSMetrics_clean_fields self exclude =
     Raise (ValidationError (Message "Execution time must be greater than 0.")))
  ∧ (0 < DBMSMetrics.execution_time self →
     DBMSMetrics_clean_fields self exclude = Ok tt).
Proof.
  intros Hbase. unfold DBMSMetrics_clean_fields. rewrite Hbase. simpl.
  case_decide as Ht; split; [|split| |split]; try done; try lia.
  - split; [done|eauto].
  - split; [by intros [? ?]|lia].
Qed.

(** C7. When the inherited checks pass, [BenchmarkConfig.clean_fields]
    raises a [ValidationError] if and only if [time <= 0] (the one of line
    137), and returns on a positive [time]. *)
Theorem BenchmarkConfig_clean_fields_positive
    (self : BenchmarkConfig.t) (exclude : option (list string)) :
  Model_clean_fields self exclude = Ok tt →
  ((∃ payload, BenchmarkConfig_clean_fields self exclude =
               Raise (ValidationError payload))
   ↔ BenchmarkConfig.time self ≤ 0)
  ∧ (BenchmarkConfig.time self ≤ 0 →
     BenchmarkConfig_clean_fields self exclude =
     Raise (ValidationError (Message "Time must be greater than 0.")))
  ∧ (0 < BenchmarkConfig.time self →
     BenchmarkConfig_clean_fields self exclude = Ok tt).
Proof.
  intros Hbase. unfold BenchmarkConfig_clean_fields. rewrite Hbase. simpl.
  case_decide as Ht; split; [|split| |split]; try done; try lia.
  - split; [done|eauto].
  - split; [by intros [? ?]|lia].
Qed.

(** ** C3, C4: what the helpers return without [include_all] *)

Lemma get_tuning_configuration_view db self include_all config :
  JSONUtil_loads (DBConf.configuration self) = Some config →
  get_tuning_configuration db self include_all =
  view_loop KnobCatalog.name KnobCatalog.tunable Ok
    (λ k v params, <[k:=v]> params) config include_all
    (filter (λ p, KnobCatalog.dbms p = DBConf.dbms self) (knobcatalog db)) ∅.
Proof.
  intros Hloads. unfold get_tuning_configuration, loads. rewrite Hloads.
  simpl. apply tuning_loop_view.
Qed.

Lemma get_normalized_configuration_view db self include_all config :
  JSONUtil_loads (DBMSMetrics.configuration self) = Some config →
  get_normalized_configuration db self include_all =
  view_loop MetricCatalog.name is_counter
    (normalized (DBMSMetrics.execution_time self)) od_setitem
    config include_all
    (filter (λ m, MetricCatalog.dbms m = DBMSMetrics.dbms self)
       (metriccatalog db)) [].
Proof.
  intros Hloads. unfold get_normalized_configuration, loads. rewrite Hloads.
  simpl. apply normalized_loop_view.
Qed.

Lemma lookup_insert_law (k k' : string) (v : pyval F)
    (m : gmap string (pyval F)) :
  <[k':=v]> m !! k = if decide (k' = k) then Some v else m !! k.
Proof. apply lookup_insert. Qed.

(** C3, with the precondition the lookup needs.  For a [DBConf] whose blob is a JSON object
    holding the name of every tunable knob of the catalog for its [dbms],
    [get_tuning_configuration] without [include_all] returns a mapping whose
    keys are exactly the names of those knobs, each mapped to its value in
    the blob. *)
Theorem get_tuning_configuration_tunable
    (db : DB) (self : DBConf.t) (cfg : gmap string (pyval F)) :
  JSONUtil_loads (DBConf.configuration self) = Some (PDict cfg) →
  (∀ p, p ∈ knobcatalog db → KnobCatalog.dbms p = DBConf.dbms self →
        KnobCatalog.tunable p = true → is_Some (cfg !! KnobCatalog.name p)) →
  ∃ params,
    get_tuning_configuration db self false = Ok params
    ∧ (∀ k, is_Some (params !! k) ↔
            ∃ p, p ∈ knobcatalog db ∧ KnobCatalog.dbms p = DBConf.dbms self
                 ∧ KnobCatalog.tunable p = true ∧ KnobCatalog.name p = k)
    ∧ (∀ p, p ∈ knobcatalog db → KnobCatalog.dbms p = DBConf.dbms self →
            KnobCatalog.tunable p = true →
            params !! KnobCatalog.name p = cfg !! KnobCatalog.name p).
Proof.
  intros Hloads Hpresent.
  rewrite (get_tuning_configuration_view _ _ _ _ Hloads).
  set (items := filter _ (knobcatalog db)).
  assert (Hitems : ∀ p, p ∈ items ↔
            KnobCatalog.dbms p = DBConf.dbms self ∧ p ∈ knobcatalog db).
  { intros p. unfold items. by rewrite list_elem_of_filter. }
  destruct (view_loop_returns KnobCatalog.name KnobCatalog.tunable Ok
              (λ k v params, <[k:=v]> params) (λ k params, params !! k)
              lookup_insert_law (PDict cfg) false items ∅)
    as (params & Hret & Hm & _ & Hk); [| done |].
  { intros p [Hd Hp]%Hitems Ht.
    destruct (Hpresent p Hp Hd Ht) as [v Hv]. exists v, v.
    by rewrite py_getitem_PDict. }
  assert (Hval : ∀ p, p ∈ knobcatalog db →
            KnobCatalog.dbms p = DBConf.dbms self →
            KnobCatalog.tunable p = true →
            params !! KnobCatalog.name p = cfg !! KnobCatalog.name p).
  { intros p Hp Hd Ht. destruct (Hpresent p Hp Hd Ht) as [v Hv]. rewrite Hv.
    apply (Hm p v v); [by apply Hitems|done|by rewrite py_getitem_PDict|done]. }
  exists params. split; [done|]. split; [|done].
  intros k. split.
  - intros Hsome.
    destruct (decide (Exists (λ p, KnobCatalog.tunable p = true
                                   ∧ KnobCatalog.name p = k) items))
      as [(p & [Hd Hp]%Hitems & Ht & Hn)%Exists_exists|Hnone].
    { by exists p. }
    rewrite Hk, lookup_empty in Hsome; [by destruct Hsome|].
    intros p Hp [Ht|?] Hn; [|done]. apply Hnone, Exists_exists. by exists p.
  - intros (p & Hp & Hd & Ht & <-). rewrite Hval by done. by apply Hpresent.
Qed.

(** C4, with the preconditions the lookup, the conversion and the
    division need.  For a [DBMSMetrics] whose [execution_time] is
    not zero and within the range of a float (the division converts it, and
    raises [OverflowError] on an integer too large), and whose blob is a JSON
    object holding, under the name of every [COUNTER] metric of the catalog
    for its [dbms], a value [float] accepts,
    [get_normalized_configuration] without [include_all] returns a mapping
    whose keys are exactly the names of those metrics, each mapped to the
    float of its value in the blob divided by [execution_time] as a float. *)
Theorem get_normalized_configuration_counters
    (db : DB) (self : DBMSMetrics.t) (cfg : gmap string (pyval F)) (t : F) :
  JSONUtil_loads (DBMSMetrics.configuration self) = Some (PDict cfg) →
  DBMSMetrics.execution_time self ≠ 0 →
  float_of_int (DBMSMetrics.execution_time self) = Some t →
  (∀ m, m ∈ metriccatalog db → MetricCatalog.dbms m = DBMSMetrics.dbms self →
        MetricCatalog.metric_type m = MetricType_COUNTER →
        ∃ v x, cfg !! MetricCatalog.name m = Some v ∧ py_float v = Ok x) →
  ∃ norm_metrics,
    get_normalized_configuration db self false = Ok norm_metrics
    ∧ (∀ k, is_Some (od_getitem k norm_metrics) ↔
            ∃ m, m ∈ metriccatalog db
                 ∧ MetricCatalog.dbms m = DBMSMetrics.dbms self
                 ∧ MetricCatalog.metric_type m = MetricType_COUNTER
                 ∧ MetricCatalog.name m = k)
    ∧ (∀ m v x, m ∈ metriccatalog db →
            MetricCatalog.dbms m = DBMSMetrics.dbms self →
            MetricCatalog.metric_type m = MetricType_COUNTER →
            cfg !! MetricCatalog.name m = Some v → py_float v = Ok x →
            od_getitem (MetricCatalog.name m) norm_metrics =
            Some (PFloat (float_div x t))).
Proof.
  intros Hloads Hnz Ht Hpresent.
  rewrite (get_normalized_configuration_view _ _ _ _ Hloads).
  set (items := filter _ (metriccatalog db)).
  assert (Hitems : ∀ m, m ∈ items ↔
            MetricCatalog.dbms m = DBMSMetrics.dbms self ∧ m ∈ metriccatalog db).
  { intros m. unfold items. by rewrite list_elem_of_filter. }
  assert (Hnorm : ∀ v x, py_float v = Ok x →
            normalized (DBMSMetrics.execution_time self) v =
            Ok (PFloat (float_div x t))).
  { intros v x Hx. unfold normalized, float_truediv. rewrite Hx. simpl.
    rewrite decide_False by done. by rewrite Ht. }
  destruct (view_loop_returns MetricCatalog.name is_counter
              (normalized (DBMSMetrics.execution_time self))
              od_setitem od_getitem od_getitem_setitem
              (PDict cfg) false items [])
    as (norm & Hret & Hm & _ & Hk); [| done |].
  { intros m [Hd Hp]%Hitems Hc%bool_decide_eq_true.
    destruct (Hpresent m Hp Hd Hc) as (v & x & Hv & Hx).
    exists v, (PFloat (float_div x t)).
    split; [by rewrite py_getitem_PDict|by apply Hnorm]. }
  assert (Hval : ∀ m v x, m ∈ metriccatalog db →
            MetricCatalog.dbms m = DBMSMetrics.dbms self →
            MetricCatalog.metric_type m = MetricType_COUNTER →
            cfg !! MetricCatalog.name m = Some v → py_float v = Ok x →
            od_getitem (MetricCatalog.name m) norm =
            Some (PFloat (float_div x t))).
  { intros m v x Hp Hd Hc Hv Hx.
    apply (Hm m v); [by apply Hitems|by apply bool_decide_eq_true
                    |by rewrite py_getitem_PDict|by apply Hnorm]. }
  exists norm. split; [done|]. split; [|done].
  intros k. split.
  - intros Hsome.
    destruct (decide (Exists (λ m, MetricCatalog.metric_type m = MetricType_COUNTER
                                   ∧ MetricCatalog.name m = k) items))
      as [(m & [Hd Hp]%Hitems & Hc & Hn)%Exists_exists|Hnone].
    { by exists m. }
    rewrite Hk in Hsome; [by destruct Hsome|].
    intros m Hp [Hc%bool_decide_eq_true|?] Hn; [|done].
    apply Hnone, Exists_exists. by exists m.
  - intros (m & Hp & Hd & Hc & <-).
    destruct (Hpresent m Hp Hd Hc) as (v & x & Hv & Hx).
    by rewrite (Hval m v x).
Qed.

(** ** C8: [include_all] *)

(** C8, for catalogs without a shared name.  When a helper returns without [include_all]
    and no [KnobCatalog] (resp. [MetricCatalog]) row of the record's [dbms]
    that does not match shares its name with one that does, the helper with
    [include_all] returns too, maps the name of every row that does not match
    (a knob that is not tunable, a metric that is no [COUNTER]) to ['--'],
    names the call without the flag leaves out, and maps the name of every
    matching row to what the call without the flag maps it to. *)
Theorem include_all_placeholders (db : DB) :
  (∀ (self : DBConf.t) (params : gmap string (pyval F)),
     get_tuning_configuration db self false = Ok params →
     (∀ p q, p ∈ knobcatalog db → q ∈ knobcatalog db →
             KnobCatalog.dbms p = DBConf.dbms self →
             KnobCatalog.dbms q = DBConf.dbms self →
             KnobCatalog.tunable p = true → KnobCatalog.tunable q = false →
             KnobCatalog.name p ≠ KnobCatalog.name q) →
     ∃ params',
       get_tuning_configuration db self true = Ok params'
       ∧ (∀ q, q ∈ knobcatalog db → KnobCatalog.dbms q = DBConf.dbms self →
               KnobCatalog.tunable q = false →
               params' !! KnobCatalog.name q = Some (PStr "--")
               ∧ params !! KnobCatalog.name q = None)
       ∧ (∀ p, p ∈ knobcatalog db → KnobCatalog.dbms p = DBConf.dbms self →
               KnobCatalog.tunable p = true →
               params' !! KnobCatalog.name p = params !! KnobCatalog.name p))
  ∧ (∀ (self : DBMSMetrics.t) (norm : list (string * pyval F)),
     get_normalized_configuration db self false = Ok norm →
     (∀ m n, m ∈ metriccatalog db → n ∈ metriccatalog db →
             MetricCatalog.dbms m = DBMSMetrics.dbms self →
             MetricCatalog.dbms n = DBMSMetrics.dbms self →
             MetricCatalog.metric_type m = MetricType_COUNTER →
             MetricCatalog.metric_type n ≠ MetricType_COUNTER →
             MetricCatalog.name m ≠ MetricCatalog.name n) →
     ∃ norm',
       get_normalized_configuration db self true = Ok norm'
       ∧ (∀ n, n ∈ metriccatalog db →
               MetricCatalog.dbms n = DBMSMetrics.dbms self →
               MetricCatalog.metric_type n ≠ MetricType_COUNTER →
               od_getitem (MetricCatalog.name n) norm' = Some (PStr "--")
               ∧ od_getitem (MetricCatalog.name n) norm = None)
       ∧ (∀ m, m ∈ metriccatalog db →
               MetricCatalog.dbms m = DBMSMetrics.dbms self →
               MetricCatalog.metric_type m = MetricType_COUNTER →
               od_getitem (MetricCatalog.name m) norm' =
               od_getitem (MetricCatalog.name m) norm)).
Proof.
  split.
  - intros self params Hret Hshare.
    destruct (JSONUtil_loads (DBConf.configuration self)) as [config|] eqn:Hl;
      [|by unfold get_tuning_configuration, loads in Hret; rewrite Hl in Hret].
    rewrite (get_tuning_configuration_view _ _ _ _ Hl) in Hret.
    rewrite (get_tuning_configuration_view _ _ _ _ Hl).
    set (items := filter _ (knobcatalog db)) in *.
    assert (Hitems : ∀ p, p ∈ items ↔
              KnobCatalog.dbms p = DBConf.dbms self ∧ p ∈ knobcatalog db).
    { intros p. unfold items. by rewrite list_elem_of_filter. }
    pose proof (view_loop_served _ _ _ _ _ _ _ _ _ Hret) as Hserved.
    assert (Hshare' : ∀ i j, i ∈ items → j ∈ items →
              KnobCatalog.tunable i = true → KnobCatalog.tunable j = false →
              KnobCatalog.name i ≠ KnobCatalog.name j).
    { intros i j [? ?]%Hitems [? ?]%Hitems. by apply Hshare. }
    destruct (view_loop_returns KnobCatalog.name KnobCatalog.tunable Ok
                (λ k v params, <[k:=v]> params) (λ k params, params !! k)
                lookup_insert_law config false items ∅ Hserved)
      as (params0 & Hret0 & Hm0 & _ & Hk0); [done|].
    assert (params0 = params) as -> by congruence.
    destruct (view_loop_returns KnobCatalog.name KnobCatalog.tunable Ok
                (λ k v params, <[k:=v]> params) (λ k params, params !! k)
                lookup_insert_law config true items ∅ Hserved)
      as (params' & Hret' & Hm' & Ho' & _); [by intros _|].
    exists params'. split; [done|]. split.
    + intros q Hq Hd Ht. split.
      * apply Ho'; [done|by apply Hitems|done].
      * rewrite Hk0; [apply lookup_empty|].
        intros i Hi [Hti|?]; [|done]. by apply Hshare'; [|apply Hitems|..].
    + intros p Hp Hd Ht. assert (Hi : p ∈ items) by by apply Hitems.
      destruct (Hserved p Hi Ht) as (v & x & Hv & Hx).
      by rewrite (Hm' p v x), (Hm0 p v x).
  - intros self norm Hret Hshare.
    destruct (JSONUtil_loads (DBMSMetrics.configuration self))
      as [config|] eqn:Hl;
      [|by unfold get_normalized_configuration, loads in Hret;
           rewrite Hl in Hret].
    rewrite (get_normalized_configuration_view _ _ _ _ Hl) in Hret.
    rewrite (get_normalized_configuration_view _ _ _ _ Hl).
    set (items := filter _ (metriccatalog db)) in *.
    assert (Hitems : ∀ m, m ∈ items ↔
              MetricCatalog.dbms m = DBMSMetrics.dbms self
              ∧ m ∈ metriccatalog db).
    { intros m. unfold items. by rewrite list_elem_of_filter. }
    pose proof (view_loop_served _ _ _ _ _ _ _ _ _ Hret) as Hserved.
    assert (Hshare' : ∀ i j, i ∈ items → j ∈ items →
              is_counter i = true → is_counter j = false →
              MetricCatalog.name i ≠ MetricCatalog.name j).
    { intros i j [? ?]%Hitems [? ?]%Hitems
        Hi%bool_decide_eq_true Hj%bool_decide_eq_false. by apply Hshare. }
    destruct (view_loop_returns MetricCatalog.name is_counter
                (normalized (DBMSMetrics.execution_time self))
                od_setitem od_getitem od_getitem_setitem
                config false items [] Hserved)
      as (norm0 & Hret0 & Hm0 & _ & Hk0); [done|].
    assert (norm0 = norm) as -> by congruence.
    destruct (view_loop_returns MetricCatalog.name is_counter
                (normalized (DBMSMetrics.execution_time self))
                od_setitem od_getitem od_getitem_setitem
                config true items [] Hserved)
      as (norm' & Hret' & Hm' & Ho' & _); [by intros _|].
    exists norm'. split; [done|]. split.
    + intros n Hn Hd Ht. assert (Hc : is_counter n = false)
        by by apply bool_decide_eq_false.
      split.
      * apply Ho'; [done|by apply Hitems|done].
      * rewrite Hk0; [done|].
        intros i Hi [Hti|?]; [|done]. by apply Hshare'; [|apply Hitems|..].
    + intros m Hm Hd Ht. assert (Hi : m ∈ items) by by apply Hitems.
      assert (Hc : is_counter m = true) by by apply bool_decide_eq_true.
      destruct (Hserved m Hi Hc) as (v & x & Hv & Hx).
      by rewrite (Hm' m v x), (Hm0 m v x).
Qed.

(** ** C9, C10: the ways the helpers raise *)

Lemma normalized_raises t v e :
  normalized t v = Raise e →
  (e = ZeroDivisionError ∧ t = 0)
  ∨ e = TypeError ∨ e = ValueError ∨ e = OverflowError.
Proof.
  unfold normalized. destruct (py_float v) as [x|e'] eqn:Hx; simpl.
  - destruct (float_truediv x t) as [q|e'] eqn:Hq; simpl; [done|].
    intros [= ->]. apply float_truediv_raises in Hq.
    destruct Hq as [[Ee Et]|[Ee Et]]; subst; auto.
  - intros [= ->]. apply py_float_raises in Hx.
    destruct Hx as [Ee|[Ee|Ee]]; subst; auto.
Qed.

(** C9, with the error of each helper.  On a record whose blob is a JSON object:
    [get_tuning_configuration] raises the [KeyError] of a tunable knob the
    blob lacks as soon as there is one, and returns when there is none;
    [get_normalized_configuration] raises as soon as the blob lacks a counter
    metric, a [KeyError] of such a metric when the conversion and the
    division succeed on every value stored for a counter metric, and raises no
    [KeyError] when the blob lacks none. *)
Theorem view_helpers_partial (db : DB) (include_all : bool) :
  (∀ (self : DBConf.t) (cfg : gmap string (pyval F)),
     JSONUtil_loads (DBConf.configuration self) = Some (PDict cfg) →
     ((∃ p, p ∈ knobcatalog db ∧ KnobCatalog.dbms p = DBConf.dbms self
            ∧ KnobCatalog.tunable p = true
            ∧ cfg !! KnobCatalog.name p = None) →
      ∃ p, p ∈ knobcatalog db ∧ KnobCatalog.dbms p = DBConf.dbms self
           ∧ KnobCatalog.tunable p = true
           ∧ cfg !! KnobCatalog.name p = None
           ∧ get_tuning_configuration db self include_all =
             Raise (KeyError (KnobCatalog.name p)))
     ∧ ((∀ p, p ∈ knobcatalog db → KnobCatalog.dbms p = DBConf.dbms self →
              KnobCatalog.tunable p = true →
              is_Some (cfg !! KnobCatalog.name p)) →
        ∃ params, get_tuning_configuration db self include_all = Ok params))
  ∧ (∀ (self : DBMSMetrics.t) (cfg : gmap string (pyval F)),
     JSONUtil_loads (DBMSMetrics.configuration self) = Some (PDict cfg) →
     ((∃ m, m ∈ metriccatalog db
            ∧ MetricCatalog.dbms m = DBMSMetrics.dbms self
            ∧ MetricCatalog.metric_type m = MetricType_COUNTER
            ∧ cfg !! MetricCatalog.name m = None) →
      (∃ e, get_normalized_configuration db self include_all = Raise e)
      ∧ ((∀ m v, m ∈ metriccatalog db →
                 MetricCatalog.dbms m = DBMSMetrics.dbms self →
                 MetricCatalog.metric_type m = MetricType_COUNTER →
                 cfg !! MetricCatalog.name m = Some v →
                 ∃ x q, py_float v = Ok x
                        ∧ float_truediv x (DBMSMetrics.execution_time self)
                          = Ok q) →
         ∃ m, m ∈ metriccatalog db
              ∧ MetricCatalog.dbms m = DBMSMetrics.dbms self
              ∧ MetricCatalog.metric_type m = MetricType_COUNTER
              ∧ cfg !! MetricCatalog.name m = None
              ∧ get_normalized_configuration db self include_all =
                Raise (KeyError (MetricCatalog.name m))))
     ∧ ((∀ m, m ∈ metriccatalog db →
              MetricCatalog.dbms m = DBMSMetrics.dbms self →
              MetricCatalog.metric_type m = MetricType_COUNTER →
              is_Some (cfg !! MetricCatalog.name m)) →
        ∀ k, get_normalized_configuration db self include_all ≠
             Raise (KeyError k))).
Proof.
  split.
  - intros self cfg Hl.
    rewrite (get_tuning_configuration_view _ _ _ _ Hl).
    set (items := filter _ (knobcatalog db)).
    assert (Hitems : ∀ p, p ∈ items ↔
              KnobCatalog.dbms p = DBConf.dbms self ∧ p ∈ knobcatalog db).
    { intros p. unfold items. by rewrite list_elem_of_filter. }
    split.
    + intros (p & Hp & Hd & Ht & Hnone).
      destruct (view_loop_unserved KnobCatalog.name KnobCatalog.tunable Ok
                  (λ k v (params : gmap string (pyval F)), <[k:=v]> params)
                  (PDict cfg) include_all items ∅ p) as [e He]; [by apply Hitems|done| |].
      { intros (v & _ & Hv%py_getitem_PDict & _). congruence. }
      destruct (view_loop_raises _ _ _ _ _ _ _ _ _ He)
        as (i & [Hid Hi]%Hitems & Hti & [Hwhy|(v & _ & Hwhy)]); [|done].
      exists i. unfold py_getitem in Hwhy.
      destruct (cfg !! KnobCatalog.name i) eqn:Hci; [done|].
      repeat (split; [done|]). congruence.
    + intros Hpresent. apply view_loop_total.
      intros p [Hd Hp]%Hitems Ht. destruct (Hpresent p Hp Hd Ht) as [v Hv].
      exists v, v. by rewrite py_getitem_PDict.
  - intros self cfg Hl.
    rewrite (get_normalized_configuration_view _ _ _ _ Hl).
    set (items := filter _ (metriccatalog db)).
    assert (Hitems : ∀ m, m ∈ items ↔
              MetricCatalog.dbms m = DBMSMetrics.dbms self
              ∧ m ∈ metriccatalog db).
    { intros m. unfold items. by rewrite list_elem_of_filter. }
    split.
    + intros (m & Hm & Hd & Ht & Hnone).
      destruct (view_loop_unserved MetricCatalog.name is_counter
                  (normalized (DBMSMetrics.execution_time self)) od_setitem
                  (PDict cfg) include_all items [] m) as [e He];
        [by apply Hitems|by apply bool_decide_eq_true| |].
      { intros (v & _ & Hv%py_getitem_PDict & _). congruence. }
      split; [by exists e|]. intros Hfine.
      destruct (view_loop_raises _ _ _ _ _ _ _ _ _ He)
        as (i & [Hid Hi]%Hitems & Hti%bool_decide_eq_true & Hwhy).
      destruct Hwhy as [Hwhy|(v & Hv%py_getitem_PDict & Hwhy)].
      * exists i. unfold py_getitem in Hwhy.
        destruct (cfg !! MetricCatalog.name i) eqn:Hci; [done|].
        repeat (split; [done|]). congruence.
      * destruct (Hfine i v Hi Hid Hti Hv) as (x & q & Hx & Hq).
        unfold normalized in Hwhy. rewrite Hx in Hwhy. simpl in Hwhy.
        by rewrite Hq in Hwhy.
    + intros Hpresent k He.
      destruct (view_loop_raises _ _ _ _ _ _ _ _ _ He)
        as (i & [Hid Hi]%Hitems & Hti%bool_decide_eq_true & Hwhy).
      destruct (Hpresent i Hi Hid Hti) as [v Hv].
      destruct Hwhy as [Hwhy|(v' & _ & Hwhy)].
      * unfold py_getitem in Hwhy. by rewrite Hv in Hwhy.
      * apply normalized_raises in Hwhy as [[? _]|[?|[?|?]]]; done.
Qed.


End Website.

(** * The cascade, further *)

(** ** Foreign keys *)

(** The keys a collector holds for a model. *)
Definition gathered (c : Collector) (m : Model) : list Z :=
  match m with
  | MProject => c_projects c
  | MApplication => c_applications c
  | MBenchmarkConfig => c_benchmarkconfigs c
  | MDBConf => c_dbconfs c
  | MDBMSMetrics => c_dbmsmetrics c
  | MResult => c_results c
  | MResultData => c_resultdata c
  | MTask => c_tasks c
  | MStatistics => c_statistics c
  end.

(** A collector is closed in a store when it holds every row of the store
    that points to a row it holds. *)
Record closed (c : Collector) (s : DB) : Prop := {
  closed_application_project : ∀ y, y ∈ applications s →
    Application.project y ∈ c_projects c → Application.pk y ∈ c_applications c;
  closed_benchmarkconfig_application : ∀ y, y ∈ benchmarkconfigs s →
    BenchmarkConfig.application y ∈ c_applications c →
    BenchmarkConfig.pk y ∈ c_benchmarkconfigs c;
  closed_dbconf_application : ∀ y, y ∈ dbconfs s →
    DBConf.application y ∈ c_applications c → DBConf.pk y ∈ c_dbconfs c;
  closed_dbmsmetrics_application : ∀ y, y ∈ dbmsmetrics s →
    DBMSMetrics.application y ∈ c_applications c →
    DBMSMetrics.pk y ∈ c_dbmsmetrics c;
  closed_result_application : ∀ y, y ∈ results s →
    Result.application y ∈ c_applications c → Result.pk y ∈ c_results c;
  closed_result_benchmark_config : ∀ y, y ∈ results s →
    Result.benchmark_config y ∈ c_benchmarkconfigs c →
    Result.pk y ∈ c_results c;
  closed_result_dbms_config : ∀ y, y ∈ results s →
    Result.dbms_config y ∈ c_dbconfs c → Result.pk y ∈ c_results c;
  closed_result_dbms_metrics : ∀ y, y ∈ results s →
    Result.dbms_metrics y ∈ c_dbmsmetrics c → Result.pk y ∈ c_results c;
  closed_resultdata_result : ∀ y, y ∈ resultdata s →
    ResultData.result y ∈ c_results c → ResultData.pk y ∈ c_resultdata c;
  closed_task_result : ∀ y, y ∈ tasks s →
    Task.result y ∈ c_results c → Task.pk y ∈ c_tasks c;
  closed_statistics_result : ∀ y, y ∈ statistics s →
    Statistics.result y ∈ c_results c → Statistics.pk y ∈ c_statistics c
}.

Lemma collect_closed s seed : closed (collect s seed) s.
Proof.
  split; intros y Hy Hfk; simpl; apply elem_of_pks; auto.
Qed.

(** Every child row left in [children] whose parent was a row of [parents0]
    still has it in [parents]. *)
Definition refs_kept {C P} (fk : C → Z) (pk : P → Z)
    (parents0 : list P) (children : list C) (parents : list P) : Prop :=
  ∀ y r, y ∈ children → r ∈ parents0 → pk r = fk y → r ∈ parents.

Lemma refs_kept_step {C P} (fk pkc : C → Z) (pk : P → Z)
    parents0 children parents kc kp :
  refs_kept fk pk parents0 children parents →
  (∀ y, y ∈ children → fk y ∈ kp → pkc y ∈ kc) →
  refs_kept fk pk parents0 (kept pkc kc children) (kept pk kp parents).
Proof.
  intros Hk Hc y r [Hy Hy']%elem_of_kept Hr Heq. apply elem_of_kept.
  split; [|by eapply Hk]. intros Hkp. apply Hy, Hc; [done|]. by rewrite <- Heq.
Qed.

(** The foreign keys among the tables of the store, relative to a store
    [db0] the rows came from. *)
Record refs_kept_db (db0 s : DB) : Prop := {
  rk_application_project :
    refs_kept Application.project Project.pk
      (projects db0) (applications s) (projects s);
  rk_benchmarkconfig_application :
    refs_kept BenchmarkConfig.application Application.pk
      (applications db0) (benchmarkconfigs s) (applications s);
  rk_dbconf_application :
    refs_kept DBConf.application Application.pk
      (applications db0) (dbconfs s) (applications s);
  rk_dbmsmetrics_application :
    refs_kept DBMSMetrics.application Application.pk
      (applications db0) (dbmsmetrics s) (applications s);
  rk_result_application :
    refs_kept Result.application Application.pk
      (applications db0) (results s) (applications s);
  rk_result_benchmark_config :
    refs_kept Result.benchmark_config BenchmarkConfig.pk
      (benchmarkconfigs db0) (results s) (benchmarkconfigs s);
  rk_result_dbms_config :
    refs_kept Result.dbms_config DBConf.pk
      (dbconfs db0) (results s) (dbconfs s);
  rk_result_dbms_metrics :
    refs_kept Result.dbms_metrics DBMSMetrics.pk
      (dbmsmetrics db0) (results s) (dbmsmetrics s);
  rk_resultdata_result :
    refs_kept ResultData.result Result.pk
      (results db0) (resultdata s) (results s);
  rk_task_result :
    refs_kept Task.result Result.pk (results db0) (tasks s) (results s);
  rk_statistics_result :
    refs_kept Statistics.result Result.pk
      (results db0) (statistics s) (results s)
}.

Lemma refs_kept_db_refl db : refs_kept_db db db.
Proof. split; intros y r Hy Hr _; exact Hr. Qed.

Lemma Collector_delete_refs db0 s c :
  closed c s → refs_kept_db db0 s → refs_kept_db db0 (Collector_delete c s).
Proof.
  intros [] []. split; simpl; by apply refs_kept_step.
Qed.

(** ** Stores reached by base deletions *)

(** The stores a sequence of base [delete] calls leads to, each call on an
    instance [ok] admits. *)
Inductive deletes (ok : Model → Z → Prop) (db0 : DB) : DB → Prop :=
| deletes_here : deletes ok db0 db0
| deletes_step s m k :
    deletes ok db0 s → ok m k → deletes ok db0 (Model_delete m k s).

Lemma deletes_trans ok db0 s s' :
  deletes ok db0 s → deletes ok s s' → deletes ok db0 s'.
Proof. intros H0. induction 1; [done|]. by constructor. Qed.

Lemma deletes_weaken (ok ok' : Model → Z → Prop) db0 s :
  (∀ m k, ok m k → ok' m k) → deletes ok db0 s → deletes ok' db0 s.
Proof. intros Hok. induction 1; constructor; auto. Qed.

Lemma kept_kept {A} (pk : A → Z) ks1 ks2 rows :
  kept pk ks2 (kept pk ks1 rows) = kept pk (ks1 ++ ks2) rows.
Proof.
  unfold kept. rewrite list_filter_filter. apply list_filter_iff.
  intros x. rewrite elem_of_app. tauto.
Qed.

(** A store pruned from [db0]: the catalogs of [db0], and of every table
    the rows of [db0] but those with certain keys. *)
Record pruned (db0 s : DB) : Prop := {
  pr_knobcatalog : knobcatalog s = knobcatalog db0;
  pr_metriccatalog : metriccatalog s = metriccatalog db0;
  pr_projects : ∃ ks, projects s = kept Project.pk ks (projects db0);
  pr_applications :
    ∃ ks, applications s = kept Application.pk ks (applications db0);
  pr_benchmarkconfigs :
    ∃ ks, benchmarkconfigs s = kept BenchmarkConfig.pk ks (benchmarkconfigs db0);
  pr_dbconfs : ∃ ks, dbconfs s = kept DBConf.pk ks (dbconfs db0);
  pr_dbmsmetrics : ∃ ks, dbmsmetrics s = kept DBMSMetrics.pk ks (dbmsmetrics db0);
  pr_results : ∃ ks, results s = kept Result.pk ks (results db0);
  pr_resultdata : ∃ ks, resultdata s = kept ResultData.pk ks (resultdata db0);
  pr_tasks : ∃ ks, tasks s = kept Task.pk ks (tasks db0);
  pr_statistics : ∃ ks, statistics s = kept Statistics.pk ks (statistics db0)
}.

Lemma pruned_refl db : pruned db db.
Proof. split; try done; exists []; by rewrite kept_nil. Qed.

Lemma Collector_delete_pruned db0 s c :
  pruned db0 s → pruned db0 (Collector_delete c s).
Proof.
  intros [? ? [k1 E1] [k2 E2] [k3 E3] [k4 E4] [k5 E5] [k6 E6] [k7 E7]
            [k8 E8] [k9 E9]].
  split; simpl; try done;
    rewrite ?E1, ?E2, ?E3, ?E4, ?E5, ?E6, ?E7, ?E8, ?E9, kept_kept; eauto.
Qed.

Lemma deletes_invariants ok db0 s :
  deletes ok db0 s →
  pruned db0 s ∧ refs_kept_db db0 s ∧ ∃ l, evolves l db0 s.
Proof.
  induction 1 as [|s m k _ (Hp & Hr & l & He) _].
  - split; [apply pruned_refl|]. split; [apply refs_kept_db_refl|].
    exists []. apply evolves_refl.
  - split; [by apply Collector_delete_pruned|].
    split; [apply Collector_delete_refs; [apply collect_closed|done]|].
    eexists. eapply evolves_trans; [exact He|apply Collector_delete_evolves].
Qed.

(** ** What a cascade spares *)

Lemma pks_sub {A} (pk : A → Z) (P : A → Prop) `{∀ x, Decision (P x)}
    (seed K : list Z) (rows : list A) :
  (∀ k, k ∈ seed → k ∈ K) → (∀ y, y ∈ rows → P y → pk y ∈ K) →
  ∀ k, k ∈ seed ++ (pk <$> filter P rows) → k ∈ K.
Proof.
  intros Hseed Hrows k [Hk|Hk]%elem_of_app; [auto|].
  apply list_elem_of_fmap in Hk as (y & -> & Hy).
  rewrite list_elem_of_filter in Hy. destruct Hy. auto.
Qed.

(** A collector gathered in a store [s] that lost rows of [db0], from a
    seed inside a collector [C] closed in [db0], stays inside [C]. *)
Lemma collect_sub C db0 s seed l :
  closed C db0 → evolves l db0 s →
  (∀ m k, k ∈ gathered seed m → k ∈ gathered C m) →
  ∀ m k, k ∈ gathered (collect s seed) m → k ∈ gathered C m.
Proof.
  intros [] He Hseed.
  assert (Hp : ∀ k, k ∈ c_projects (collect s seed) → k ∈ c_projects C)
    by apply (Hseed MProject).
  assert (Ha : ∀ k, k ∈ c_applications (collect s seed) →
                    k ∈ c_applications C).
  { apply pks_sub; [apply (Hseed MApplication)|]. intros y Hy HP.
    apply closed_application_project0; [by apply (ev_applications _ _ _ He)|auto]. }
  assert (Hb : ∀ k, k ∈ c_benchmarkconfigs (collect s seed) →
                    k ∈ c_benchmarkconfigs C).
  { apply pks_sub; [apply (Hseed MBenchmarkConfig)|]. intros y Hy HP.
    apply closed_benchmarkconfig_application0;
      [by apply (ev_benchmarkconfigs _ _ _ He)|auto]. }
  assert (Hc : ∀ k, k ∈ c_dbconfs (collect s seed) → k ∈ c_dbconfs C).
  { apply pks_sub; [apply (Hseed MDBConf)|]. intros y Hy HP.
    apply closed_dbconf_application0; [by apply (ev_dbconfs _ _ _ He)|auto]. }
  assert (Hm : ∀ k, k ∈ c_dbmsmetrics (collect s seed) → k ∈ c_dbmsmetrics C).
  { apply pks_sub; [apply (Hseed MDBMSMetrics)|]. intros y Hy HP.
    apply closed_dbmsmetrics_application0; [by apply (ev_dbmsmetrics _ _ _ He)|auto]. }
  assert (Hr : ∀ k, k ∈ c_results (collect s seed) → k ∈ c_results C).
  { apply pks_sub; [apply (Hseed MResult)|]. intros y Hy HP.
    apply (ev_results _ _ _ He) in Hy. destruct HP as [?|[?|[?|?]]]; auto. }
  intros [] k; auto.
  - apply pks_sub; [apply (Hseed MResultData)|]. intros y Hy HP.
    apply closed_resultdata_result0; [by apply (ev_resultdata _ _ _ He)|auto].
  - apply pks_sub; [apply (Hseed MTask)|]. intros y Hy HP.
    apply closed_task_result0; [by apply (ev_tasks _ _ _ He)|auto].
  - apply pks_sub; [apply (Hseed MStatistics)|]. intros y Hy HP.
    apply closed_statistics_result0; [by apply (ev_statistics _ _ _ He)|auto].
Qed.

(** The rows of [db0] whose key the collector [C] does not hold. *)
Record spares (C : Collector) (db0 s : DB) : Prop := {
  sp_projects : ∀ x, x ∈ projects db0 →
    Project.pk x ∉ c_projects C → x ∈ projects s;
  sp_applications : ∀ x, x ∈ applications db0 →
    Application.pk x ∉ c_applications C → x ∈ applications s;
  sp_benchmarkconfigs : ∀ x, x ∈ benchmarkconfigs db0 →
    BenchmarkConfig.pk x ∉ c_benchmarkconfigs C → x ∈ benchmarkconfigs s;
  sp_dbconfs : ∀ x, x ∈ dbconfs db0 →
    DBConf.pk x ∉ c_dbconfs C → x ∈ dbconfs s;
  sp_dbmsmetrics : ∀ x, x ∈ dbmsmetrics db0 →
    DBMSMetrics.pk x ∉ c_dbmsmetrics C → x ∈ dbmsmetrics s;
  sp_results : ∀ x, x ∈ results db0 →
    Result.pk x ∉ c_results C → x ∈ results s;
  sp_resultdata : ∀ x, x ∈ resultdata db0 →
    ResultData.pk x ∉ c_resultdata C → x ∈ resultdata s;
  sp_tasks : ∀ x, x ∈ tasks db0 → Task.pk x ∉ c_tasks C → x ∈ tasks s;
  sp_statistics : ∀ x, x ∈ statistics db0 →
    Statistics.pk x ∉ c_statistics C → x ∈ statistics s
}.

(** Base deletions of instances a closed collector holds remove no row the
    collector does not hold. *)
Lemma deletes_spares C db0 s :
  closed C db0 → deletes (λ m k, k ∈ gathered C m) db0 s → spares C db0 s.
Proof.
  intros Hclosed. induction 1 as [|s m k Hd IH Hk]; [by split|].
  destruct (deletes_invariants _ _ _ Hd) as (_ & _ & l & He).
  assert (Hsub : ∀ m' k', k' ∈ gathered (collect s (instance m k)) m' →
                          k' ∈ gathered C m').
  { eapply collect_sub; [done..|]. intros m' k'.
    destruct m, m'; simpl; try (by intros ?%elem_of_nil);
      by intros ->%list_elem_of_singleton. }
  destruct IH. split; intros x Hx Hn; apply elem_of_kept; (split; [|by auto]).
  - intros ?. apply Hn. by apply (Hsub MProject).
  - intros ?. apply Hn. by apply (Hsub MApplication).
  - intros ?. apply Hn. by apply (Hsub MBenchmarkConfig).
  - intros ?. apply Hn. by apply (Hsub MDBConf).
  - intros ?. apply Hn. by apply (Hsub MDBMSMetrics).
  - intros ?. apply Hn. by apply (Hsub MResult).
  - intros ?. apply Hn. by apply (Hsub MResultData).
  - intros ?. apply Hn. by apply (Hsub MTask).
  - intros ?. apply Hn. by apply (Hsub MStatistics).
Qed.

(** ** What a cascade takes *)

(** Store [s] holds no row whose key is in [seed], and no row that points
    to such a key. *)
Record clear_of (seed : Collector) (s : DB) : Prop := {
  co_projects : ∀ x, x ∈ projects s → Project.pk x ∉ c_projects seed;
  co_applications : ∀ x, x ∈ applications s →
    Application.pk x ∉ c_applications seed;
  co_benchmarkconfigs : ∀ x, x ∈ benchmarkconfigs s →
    BenchmarkConfig.pk x ∉ c_benchmarkconfigs seed;
  co_dbconfs : ∀ x, x ∈ dbconfs s → DBConf.pk x ∉ c_dbconfs seed;
  co_dbmsmetrics : ∀ x, x ∈ dbmsmetrics s →
    DBMSMetrics.pk x ∉ c_dbmsmetrics seed;
  co_results : ∀ x, x ∈ results s → Result.pk x ∉ c_results seed;
  co_resultdata : ∀ x, x ∈ resultdata s → ResultData.pk x ∉ c_resultdata seed;
  co_tasks : ∀ x, x ∈ tasks s → Task.pk x ∉ c_tasks seed;
  co_statistics : ∀ x, x ∈ statistics s → Statistics.pk x ∉ c_statistics seed;
  co_application_project : ∀ y, y ∈ applications s →
    Application.project y ∉ c_projects seed;
  co_benchmarkconfig_application : ∀ y, y ∈ benchmarkconfigs s →
    BenchmarkConfig.application y ∉ c_applications seed;
  co_dbconf_application : ∀ y, y ∈ dbconfs s →
    DBConf.application y ∉ c_applications seed;
  co_dbmsmetrics_application : ∀ y, y ∈ dbmsmetrics s →
    DBMSMetrics.application y ∉ c_applications seed;
  co_result_application : ∀ y, y ∈ results s →
    Result.application y ∉ c_applications seed;
  co_result_benchmark_config : ∀ y, y ∈ results s →
    Result.benchmark_config y ∉ c_benchmarkconfigs seed;
  co_result_dbms_config : ∀ y, y ∈ results s →
    Result.dbms_config y ∉ c_dbconfs seed;
  co_result_dbms_metrics : ∀ y, y ∈ results s →
    Result.dbms_metrics y ∉ c_dbmsmetrics seed;
  co_resultdata_result : ∀ y, y ∈ resultdata s →
    ResultData.result y ∉ c_results seed;
  co_task_result : ∀ y, y ∈ tasks s → Task.result y ∉ c_results seed;
  co_statistics_result : ∀ y, y ∈ statistics s →
    Statistics.result y ∉ c_results seed
}.

Section Layers.
Context {Ch P : Type} (fk pkc : Ch → Z) (pkp : P → Z).

(** No child left points into [Kp], when the keys of [Kp] are seed keys, to
    which no child left points, or keys of parents that are gone. *)
Lemma no_pointer parents0 parents (children : list Ch) (seedp Kp : list Z) :
  refs_kept fk pkp parents0 children parents →
  (∀ y, y ∈ children → fk y ∉ seedp) →
  (∀ k, k ∈ Kp → k ∈ seedp ∨ ∃ r, r ∈ parents0 ∧ pkp r = k ∧ r ∉ parents) →
  ∀ y, y ∈ children → fk y ∉ Kp.
Proof.
  intros Hrefs Hseed HK y Hy [Hk|(r & Hr & Heq & Hgone)]%HK.
  - by apply (Hseed y).
  - apply Hgone. by eapply Hrefs.
Qed.

(** The rows a gathering step holds are gone, when no row left has a seed
    key or satisfies the condition [Q] of the step. *)
Lemma gathered_gone (Q : Ch → Prop) `{∀ y, Decision (Q y)}
    ks (children0 children : list Ch) (seed : list Z) :
  children = kept pkc ks children0 →
  (∀ x, x ∈ children → pkc x ∉ seed) →
  (∀ y, y ∈ children → ¬ Q y) →
  ∀ k, k ∈ seed ++ (pkc <$> filter Q children0) →
       (∀ y, y ∈ children0 → pkc y = k → y ∉ children)
       ∧ (k ∈ seed ∨ ∃ r, r ∈ children0 ∧ pkc r = k ∧ r ∉ children).
Proof.
  intros -> Hseed HQ k Hk.
  assert (Hks : k ∈ seed ∨ ∃ r, r ∈ children0 ∧ pkc r = k ∧ Q r).
  { apply elem_of_app in Hk as [?|Hk]; [by left|right].
    apply list_elem_of_fmap in Hk as (r & -> & Hr).
    rewrite list_elem_of_filter in Hr. destruct Hr. by exists r. }
  assert (Hgone : ∀ y, y ∈ children0 → pkc y = k → y ∉ kept pkc ks children0).
  { intros y Hy <- Hin. destruct Hks as [?|(r & Hr & Heq & Hq)].
    - by apply (Hseed y).
    - apply (HQ r); [|done]. apply elem_of_kept. split; [|done].
      rewrite Heq. by apply elem_of_kept in Hin as [? _]. }
  split; [done|]. destruct Hks as [?|(r & Hr & Heq & Hq)]; [by left|].
  right. exists r. repeat split; try done. by apply Hgone.
Qed.

Lemma kept_determined (ks K : list Z) (rows new : list Ch) :
  new = kept pkc ks rows →
  (∀ x, x ∈ rows → pkc x ∉ K → x ∈ new) →
  (∀ x, x ∈ rows → pkc x ∈ K → x ∉ new) →
  new = kept pkc K rows.
Proof.
  intros -> Hspare Hgone. unfold kept.
  induction rows as [|x rows IH]; [done|].
  assert (Hx : x ∈ x :: rows) by constructor.
  rewrite !filter_cons.
  rewrite IH.
  - destruct (decide (pkc x ∈ K)) as [HK|HK].
    + specialize (Hgone x Hx HK). rewrite elem_of_kept in Hgone.
      destruct (decide (pkc x ∉ ks)); [|by rewrite decide_False by auto].
      destruct Hgone. by split.
    + specialize (Hspare x Hx HK). apply elem_of_kept in Hspare as [? _].
      by rewrite !decide_True.
  - intros y Hy HK. specialize (Hspare y (list_elem_of_further _ _ _ Hy) HK).
    apply elem_of_kept in Hspare as [? _]. by apply elem_of_kept.
  - intros y Hy HK Hin.
    apply (Hgone y (list_elem_of_further _ _ _ Hy) HK).
    apply elem_of_kept in Hin as [? _]. apply elem_of_kept.
    split; [done|by right].
Qed.
End Layers.

(** Two stores with the same catalogs and tables (their journals apart). *)
Record same_tables (s s' : DB) : Prop := {
  st_knobcatalog : knobcatalog s = knobcatalog s';
  st_metriccatalog : metriccatalog s = metriccatalog s';
  st_projects : projects s = projects s';
  st_applications : applications s = applications s';
  st_benchmarkconfigs : benchmarkconfigs s = benchmarkconfigs s';
  st_dbconfs : dbconfs s = dbconfs s';
  st_dbmsmetrics : dbmsmetrics s = dbmsmetrics s';
  st_results : results s = results s';
  st_resultdata : resultdata s = resultdata s';
  st_tasks : tasks s = tasks s';
  st_statistics : statistics s = statistics s'
}.

(** A sequence of base deletions that stays inside the cascade of [seed]
    and leaves no row of [seed], nor a row that points to one, leaves the
    tables the cascade of [seed] alone leaves. *)
Lemma cascade_tables seed db0 s :
  deletes (λ m k, k ∈ gathered (collect db0 seed) m) db0 s →
  clear_of seed s →
  same_tables s (Collector_delete (collect db0 seed) db0).
Proof.
  intros Hd Hco. set (C := collect db0 seed) in *.
  destruct (deletes_invariants _ _ _ Hd) as (Hp & Hr & _).
  pose proof (deletes_spares C db0 s (collect_closed db0 seed) Hd) as Hs.
  destruct Hp as [Hkc Hmc [k1 E1] [k2 E2] [k3 E3] [k4 E4] [k5 E5] [k6 E6]
                    [k7 E7] [k8 E8] [k9 E9]].
  destruct Hr, Hco, Hs.
  pose proof (gathered_gone Application.pk
                (λ x, Application.project x ∈ c_projects seed)
                k2 (applications db0) (applications s) (c_applications seed)
                E2 co_applications0 co_application_project0) as Ga.
  pose proof (no_pointer BenchmarkConfig.application Application.pk
                _ _ _ (c_applications seed) (c_applications C)
                rk_benchmarkconfig_application0
                co_benchmarkconfig_application0
                (λ k Hk, proj2 (Ga k Hk))) as Nb.
  pose proof (gathered_gone BenchmarkConfig.pk
                (λ x, BenchmarkConfig.application x ∈ c_applications C)
                k3 (benchmarkconfigs db0) (benchmarkconfigs s)
                (c_benchmarkconfigs seed) E3 co_benchmarkconfigs0 Nb) as Gb.
  pose proof (no_pointer DBConf.application Application.pk
                _ _ _ (c_applications seed) (c_applications C)
                rk_dbconf_application0 co_dbconf_application0
                (λ k Hk, proj2 (Ga k Hk))) as Nc.
  pose proof (gathered_gone DBConf.pk
                (λ x, DBConf.application x ∈ c_applications C)
                k4 (dbconfs db0) (dbconfs s) (c_dbconfs seed)
                E4 co_dbconfs0 Nc) as Gc.
  pose proof (no_pointer DBMSMetrics.application Application.pk
                _ _ _ (c_applications seed) (c_applications C)
                rk_dbmsmetrics_application0 co_dbmsmetrics_application0
                (λ k Hk, proj2 (Ga k Hk))) as Nm.
  pose proof (gathered_gone DBMSMetrics.pk
                (λ x, DBMSMetrics.application x ∈ c_applications C)
                k5 (dbmsmetrics db0) (dbmsmetrics s) (c_dbmsmetrics seed)
                E5 co_dbmsmetrics0 Nm) as Gm.
  pose proof (no_pointer Result.application Application.pk
                _ _ _ (c_applications seed) (c_applications C)
                rk_result_application0 co_result_application0
                (λ k Hk, proj2 (Ga k Hk))) as Nra.
  pose proof (no_pointer Result.benchmark_config BenchmarkConfig.pk
                _ _ _ (c_benchmarkconfigs seed) (c_benchmarkconfigs C)
                rk_result_benchmark_config0 co_result_benchmark_config0
                (λ k Hk, proj2 (Gb k Hk))) as Nrb.
  pose proof (no_pointer Result.dbms_config DBConf.pk
                _ _ _ (c_dbconfs seed) (c_dbconfs C)
                rk_result_dbms_config0 co_result_dbms_config0
                (λ k Hk, proj2 (Gc k Hk))) as Nrc.
  pose proof (no_pointer Result.dbms_metrics DBMSMetrics.pk
                _ _ _ (c_dbmsmetrics seed) (c_dbmsmetrics C)
                rk_result_dbms_metrics0 co_result_dbms_metrics0
                (λ k Hk, proj2 (Gm k Hk))) as Nrm.
  pose proof (gathered_gone Result.pk
                (λ x, Result.application x ∈ c_applications C
                      ∨ Result.benchmark_config x ∈ c_benchmarkconfigs C
                      ∨ Result.dbms_config x ∈ c_dbconfs C
                      ∨ Result.dbms_metrics x ∈ c_dbmsmetrics C)
                k6 (results db0) (results s) (c_results seed) E6 co_results0)
    as Gr.
  specialize (Gr ltac:(intros y Hy [?|[?|[?|?]]];
    [by apply (Nra y)|by apply (Nrb y)|by apply (Nrc y)|by apply (Nrm y)])).
  pose proof (no_pointer ResultData.result Result.pk
                _ _ _ (c_results seed) (c_results C)
                rk_resultdata_result0 co_resultdata_result0
                (λ k Hk, proj2 (Gr k Hk))) as Nd.
  pose proof (gathered_gone ResultData.pk
                (λ x, ResultData.result x ∈ c_results C)
                k7 (resultdata db0) (resultdata s) (c_resultdata seed)
                E7 co_resultdata0 Nd) as Gd.
  pose proof (no_pointer Task.result Result.pk
                _ _ _ (c_results seed) (c_results C)
                rk_task_result0 co_task_result0
                (λ k Hk, proj2 (Gr k Hk))) as Nt.
  pose proof (gathered_gone Task.pk (λ x, Task.result x ∈ c_results C)
                k8 (tasks db0) (tasks s) (c_tasks seed)
                E8 co_tasks0 Nt) as Gt.
  pose proof (no_pointer Statistics.result Result.pk
                _ _ _ (c_results seed) (c_results C)
                rk_statistics_result0 co_statistics_result0
                (λ k Hk, proj2 (Gr k Hk))) as Nst.
  pose proof (gathered_gone Statistics.pk
                (λ x, Statistics.result x ∈ c_results C)
                k9 (statistics db0) (statistics s) (c_statistics seed)
                E9 co_statistics0 Nst) as Gst.
  split; simpl; try done.
  - eapply kept_determined; [exact E1|done|].
    intros x Hx Hk Hin. by apply (co_projects0 x).
  - eapply kept_determined; [exact E2|done|].
    intros x Hx Hk. by apply (proj1 (Ga _ Hk)).
  - eapply kept_determined; [exact E3|done|].
    intros x Hx Hk. by apply (proj1 (Gb _ Hk)).
  - eapply kept_determined; [exact E4|done|].
    intros x Hx Hk. by apply (proj1 (Gc _ Hk)).
  - eapply kept_determined; [exact E5|done|].
    intros x Hx Hk. by apply (proj1 (Gm _ Hk)).
  - eapply kept_determined; [exact E6|done|].
    intros x Hx Hk. by apply (proj1 (Gr _ Hk)).
  - eapply kept_determined; [exact E7|done|].
    intros x Hx Hk. by apply (proj1 (Gd _ Hk)).
  - eapply kept_determined; [exact E8|done|].
    intros x Hx Hk. by apply (proj1 (Gt _ Hk)).
  - eapply kept_determined; [exact E9|done|].
    intros x Hx Hk. by apply (proj1 (Gst _ Hk)).
Qed.

(** ** The overrides as sequences of base deletions *)

Lemma deletes_foldl {A} ok db0 (m : Model) (pk : A → Z) (rows : list A) s :
  deletes ok db0 s → (∀ x, x ∈ rows → ok m (pk x)) →
  deletes ok db0 (foldl (λ s x, Model_delete m (pk x) s) s rows).
Proof.
  revert s. induction rows as [|x rows IH]; intros s Hs Hok; simpl; [done|].
  apply IH.
  - constructor; [done|]. apply Hok. constructor.
  - intros y Hy. apply Hok. by constructor.
Qed.

Lemma deletes_sub ok db0 s :
  deletes ok db0 s →
  (∀ x, x ∈ dbconfs s → x ∈ dbconfs db0)
  ∧ (∀ x, x ∈ results s → x ∈ results db0)
  ∧ (∀ x, x ∈ benchmarkconfigs s → x ∈ benchmarkconfigs db0)
  ∧ (∀ x, x ∈ applications s → x ∈ applications db0).
Proof.
  intros (_ & _ & l & He)%deletes_invariants.
  repeat split; intros x Hx.
  - by apply (ev_dbconfs _ _ _ He).
  - by apply (ev_results _ _ _ He).
  - by apply (ev_benchmarkconfigs _ _ _ He).
  - by apply (ev_applications _ _ _ He).
Qed.

(** [Application.delete] is a sequence of base deletions: of the
    configurations, results and benchmarks of the application, then of the
    application. *)
Lemma Application_delete_deletes (ok : Model → Z → Prop) self s :
  (∀ t, t ∈ dbconfs s → DBConf.application t = Application.pk self →
        ok MDBConf (DBConf.pk t)) →
  (∀ r, r ∈ results s → Result.application r = Application.pk self →
        ok MResult (Result.pk r)) →
  (∀ x, x ∈ benchmarkconfigs s →
        BenchmarkConfig.application x = Application.pk self →
        ok MBenchmarkConfig (BenchmarkConfig.pk x)) →
  ok MApplication (Application.pk self) →
  deletes ok s (Application_delete self s).
Proof.
  intros Hc Hr Hb Ha. rewrite Application_delete_unfold.
  constructor; [|done]. unfold Application_delete_loops.
  set (a := Application.pk self) in *.
  assert (H1 : deletes ok s
            (foldl (λ s t, Model_delete MDBConf (DBConf.pk t) s) s
               (filter (λ t, DBConf.application t = a) (dbconfs s)))).
  { apply deletes_foldl; [constructor|].
    intros t Ht. rewrite list_elem_of_filter in Ht. destruct Ht. auto. }
  set (db1 := foldl _ s _) in *.
  assert (H2 : deletes ok s
            (foldl (λ s r, Model_delete MResult (Result.pk r) s) db1
               (filter (λ r, Result.application r = a) (results db1)))).
  { apply deletes_foldl; [done|].
    intros r Hin. rewrite list_elem_of_filter in Hin. destruct Hin.
    apply Hr; [|done]. by apply (deletes_sub _ _ _ H1). }
  set (db2 := foldl _ db1 _) in *.
  apply deletes_foldl; [done|].
  intros x Hin. rewrite list_elem_of_filter in Hin. destruct Hin.
  apply Hb; [|done]. by apply (deletes_sub _ _ _ H2).
Qed.

Lemma deletes_foldl_Application (ok : Model → Z → Prop) db0
    (rows : list Application.t) s :
  deletes ok db0 s →
  (∀ x, x ∈ rows →
     ok MApplication (Application.pk x)
     ∧ (∀ t, t ∈ dbconfs db0 → DBConf.application t = Application.pk x →
             ok MDBConf (DBConf.pk t))
     ∧ (∀ r, r ∈ results db0 → Result.application r = Application.pk x →
             ok MResult (Result.pk r))
     ∧ (∀ b, b ∈ benchmarkconfigs db0 →
             BenchmarkConfig.application b = Application.pk x →
             ok MBenchmarkConfig (BenchmarkConfig.pk b))) →
  deletes ok db0 (foldl (λ s x, Application_delete x s) s rows).
Proof.
  revert s. induction rows as [|x rows IH]; intros s Hs Hok; simpl; [done|].
  apply IH; [|intros y Hy; apply Hok; by constructor].
  destruct (Hok x) as (Ha & Hc & Hr & Hb); [constructor|].
  destruct (deletes_sub _ _ _ Hs) as (Sc & Sr & Sb & _).
  eapply deletes_trans; [exact Hs|].
  apply Application_delete_deletes; auto.
Qed.

(** [Project.delete] is a sequence of base deletions too. *)
Lemma Project_delete_deletes (ok : Model → Z → Prop) self s :
  (∀ x, x ∈ applications s → Application.project x = Project.pk self →
     ok MApplication (Application.pk x)
     ∧ (∀ t, t ∈ dbconfs s → DBConf.application t = Application.pk x →
             ok MDBConf (DBConf.pk t))
     ∧ (∀ r, r ∈ results s → Result.application r = Application.pk x →
             ok MResult (Result.pk r))
     ∧ (∀ b, b ∈ benchmarkconfigs s →
             BenchmarkConfig.application b = Application.pk x →
             ok MBenchmarkConfig (BenchmarkConfig.pk b))) →
  ok MProject (Project.pk self) →
  deletes ok s (Project_delete self s).
Proof.
  intros Happs Hp. unfold Project_delete. constructor; [|done].
  apply deletes_foldl_Application; [constructor|].
  intros x Hx. rewrite list_elem_of_filter in Hx. destruct Hx. auto.
Qed.

Definition any_instance : Model → Z → Prop := λ _ _, True.

Lemma Application_delete_reached self db :
  deletes any_instance db (Application_delete self db).
Proof. by apply Application_delete_deletes. Qed.

Lemma Project_delete_reached self db :
  deletes any_instance db (Project_delete self db).
Proof. by apply Project_delete_deletes. Qed.

(** The steps of the overrides stay inside the cascade of the instance. *)
Lemma Application_delete_inside self db :
  deletes (λ m k, k ∈ gathered
             (collect db (instance MApplication (Application.pk self))) m)
    db (Application_delete self db).
Proof.
  set (C := collect db (instance MApplication (Application.pk self))).
  destruct (collect_closed db (instance MApplication (Application.pk self))).
  fold C in closed_dbconf_application0, closed_result_application0,
    closed_benchmarkconfig_application0.
  assert (Ha : Application.pk self ∈ c_applications C) by (simpl; constructor).
  apply Application_delete_deletes; simpl gathered.
  - intros t Ht Heq. apply closed_dbconf_application0; [done|by rewrite Heq].
  - intros t Ht Heq. apply closed_result_application0; [done|by rewrite Heq].
  - intros t Ht Heq.
    apply closed_benchmarkconfig_application0; [done|by rewrite Heq].
  - done.
Qed.

Lemma Project_delete_inside self db :
  deletes (λ m k, k ∈ gathered
             (collect db (instance MProject (Project.pk self))) m)
    db (Project_delete self db).
Proof.
  set (C := collect db (instance MProject (Project.pk self))).
  destruct (collect_closed db (instance MProject (Project.pk self))).
  fold C in closed_application_project0, closed_dbconf_application0,
    closed_result_application0, closed_benchmarkconfig_application0.
  apply Project_delete_deletes; simpl gathered.
  - intros x Hx Hp.
    assert (Ha : Application.pk x ∈ c_applications C).
    { apply closed_application_project0; [done|]. rewrite Hp. simpl.
      constructor. }
    split; [done|]. split; [|split]; intros t Ht Heq.
    + apply closed_dbconf_application0; [done|by rewrite Heq].
    + apply closed_result_application0; [done|by rewrite Heq].
    + apply closed_benchmarkconfig_application0; [done|by rewrite Heq].
  - simpl. constructor.
Qed.

(** What the overrides leave of the instance. *)
Lemma Application_delete_clear_of self db :
  clear_of (instance MApplication (Application.pk self))
    (Application_delete self db).
Proof.
  destruct (Application_delete_spec self db)
    as (_ & _ & [Kc Km Kr Kb Ka] & _).
  split; simpl; intros x Hx Hin;
    try (by apply elem_of_nil in Hin);
    apply list_elem_of_singleton in Hin.
  - by apply (Ka x).
  - by apply (Kb x).
  - by apply (Kc x).
  - by apply (Km x).
  - by apply (Kr x).
Qed.

Lemma Project_delete_clear_of self db :
  clear_of (instance MProject (Project.pk self)) (Project_delete self db).
Proof.
  unfold Project_delete. set (s := foldl _ db _).
  split; simpl; intros x Hx Hin;
    try (by apply elem_of_nil in Hin);
    apply elem_of_kept in Hx as [Hk Hx]; apply Hk.
  - done.
  - apply list_elem_of_fmap. exists x. split; [done|].
    by rewrite list_elem_of_filter.
Qed.

(** ** Referential integrity *)

(** Every row of [children] points to a row of [parents]. *)
Definition has_parent {C P} (fk : C → Z) (pk : P → Z)
    (children : list C) (parents : list P) : Prop :=
  ∀ y, y ∈ children → ∃ r, r ∈ parents ∧ pk r = fk y.

(** The foreign keys between the tables of the store all point to rows of
    the store.  (The keys to [User], [Hardware] and [DBMSCatalog] point
    outside of it.) *)
Record integrity (db : DB) : Prop := {
  in_application_project :
    has_parent Application.project Project.pk (applications db) (projects db);
  in_benchmarkconfig_application :
    has_parent BenchmarkConfig.application Application.pk
      (benchmarkconfigs db) (applications db);
  in_dbconf_application :
    has_parent DBConf.application Application.pk (dbconfs db) (applications db);
  in_dbmsmetrics_application :
    has_parent DBMSMetrics.application Application.pk
      (dbmsmetrics db) (applications db);
  in_result_application :
    has_parent Result.application Application.pk (results db) (applications db);
  in_result_benchmark_config :
    has_parent Result.benchmark_config BenchmarkConfig.pk
      (results db) (benchmarkconfigs db);
  in_result_dbms_config :
    has_parent Result.dbms_config DBConf.pk (results db) (dbconfs db);
  in_result_dbms_metrics :
    has_parent Result.dbms_metrics DBMSMetrics.pk (results db) (dbmsmetrics db);
  in_resultdata_result :
    has_parent ResultData.result Result.pk (resultdata db) (results db);
  in_task_result : has_parent Task.result Result.pk (tasks db) (results db);
  in_statistics_result :
    has_parent Statistics.result Result.pk (statistics db) (results db)
}.

Lemma has_parent_kept {C P} (fk : C → Z) (pk : P → Z)
    children0 parents0 children parents :
  has_parent fk pk children0 parents0 →
  (∀ y, y ∈ children → y ∈ children0) →
  refs_kept fk pk parents0 children parents →
  has_parent fk pk children parents.
Proof.
  intros H0 Hsub Hrefs y Hy. destruct (H0 y (Hsub y Hy)) as (r & Hr & Heq).
  exists r. split; [by eapply Hrefs|done].
Qed.

Lemma deletes_integrity ok db0 s :
  deletes ok db0 s → integrity db0 → integrity s.
Proof.
  intros (_ & [] & l & He)%deletes_invariants [].
  split; eapply has_parent_kept; try eassumption.
  - apply (ev_applications _ _ _ He).
  - apply (ev_benchmarkconfigs _ _ _ He).
  - apply (ev_dbconfs _ _ _ He).
  - apply (ev_dbmsmetrics _ _ _ He).
  - apply (ev_results _ _ _ He).
  - apply (ev_results _ _ _ He).
  - apply (ev_results _ _ _ He).
  - apply (ev_results _ _ _ He).
  - apply (ev_resultdata _ _ _ He).
  - apply (ev_tasks _ _ _ He).
  - apply (ev_statistics _ _ _ He).
Qed.

(** X2. Deletion keeps referential integrity: when every foreign key of a
    store points to a row of the store, the same holds after
    [Application.delete], after [Project.delete] and after the base [delete]
    of any row. *)
Theorem delete_keeps_integrity (db : DB) :
  integrity db →
  (∀ self, integrity (Application_delete self db))
  ∧ (∀ self, integrity (Project_delete self db))
  ∧ (∀ m k, integrity (Model_delete m k db)).
Proof.
  intros Hi. split; [|split].
  - intros self. eapply deletes_integrity; [|exact Hi].
    apply Application_delete_reached.
  - intros self. eapply deletes_integrity; [|exact Hi].
    apply Project_delete_reached.
  - intros m k. eapply (deletes_integrity any_instance); [|exact Hi].
    by repeat constructor.
Qed.

(** ** The overrides and the base cascade *)

(** X3. The tables [Application.delete] leaves are the tables the base
    [delete] of the application alone would leave: the three loops change
    the order in which rows go, not the rows that go. *)
Theorem Application_delete_same_tables (self : Application.t) (db : DB) :
  same_tables (Application_delete self db)
    (Model_delete MApplication (Application.pk self) db).
Proof.
  apply cascade_tables;
    [apply Application_delete_inside|apply Application_delete_clear_of].
Qed.

(** X4. The tables [Project.delete] leaves are the tables the base
    [delete] of the project alone would leave. *)
Theorem Project_delete_same_tables (self : Project.t) (db : DB) :
  same_tables (Project_delete self db)
    (Model_delete MProject (Project.pk self) db).
Proof.
  apply cascade_tables;
    [apply Project_delete_inside|apply Project_delete_clear_of].
Qed.

(** ** What [Application.delete] removes, row by row *)

(** Primary keys are unique in every table. *)
Record unique_keys (db : DB) : Prop := {
  uk_projects : NoDup (Project.pk <$> projects db);
  uk_applications : NoDup (Application.pk <$> applications db);
  uk_benchmarkconfigs : NoDup (BenchmarkConfig.pk <$> benchmarkconfigs db);
  uk_dbconfs : NoDup (DBConf.pk <$> dbconfs db);
  uk_dbmsmetrics : NoDup (DBMSMetrics.pk <$> dbmsmetrics db);
  uk_results : NoDup (Result.pk <$> results db);
  uk_resultdata : NoDup (ResultData.pk <$> resultdata db);
  uk_tasks : NoDup (Task.pk <$> tasks db);
  uk_statistics : NoDup (Statistics.pk <$> statistics db)
}.

(** The result depends on application [a]: it is a result of [a], or of a
    benchmark, a configuration or a metrics snapshot of [a]. *)
Definition depends_on (a : Z) (db : DB) (r : Result.t) : Prop :=
  Result.application r = a
  ∨ Result.benchmark_config r ∈
      (BenchmarkConfig.pk <$>
         filter (λ x, BenchmarkConfig.application x = a) (benchmarkconfigs db))
  ∨ Result.dbms_config r ∈
      (DBConf.pk <$> filter (λ x, DBConf.application x = a) (dbconfs db))
  ∨ Result.dbms_metrics r ∈
      (DBMSMetrics.pk <$>
         filter (λ x, DBMSMetrics.application x = a) (dbmsmetrics db)).

#[local] Instance depends_on_dec a db r : Decision (depends_on a db r).
Proof. unfold depends_on. apply _. Defined.

Lemma NoDup_fmap_eq {A} (pk : A → Z) (rows : list A) x y :
  NoDup (pk <$> rows) → x ∈ rows → y ∈ rows → pk x = pk y → x = y.
Proof.
  induction rows as [|r rows IH]; intros Hnd Hx Hy Heq;
    [by apply elem_of_nil in Hx|].
  rewrite fmap_cons in Hnd. apply NoDup_cons in Hnd as [Hr Hnd].
  apply elem_of_cons in Hx as [->|Hx]; apply elem_of_cons in Hy as [->|Hy];
    try done; try by apply IH.
  - destruct Hr. apply list_elem_of_fmap. by exists y.
  - destruct Hr. apply list_elem_of_fmap. by exists x.
Qed.

Lemma filter_ext_in {A} (P Q : A → Prop)
    `{∀ x, Decision (P x)} `{∀ x, Decision (Q x)} (rows : list A) :
  (∀ x, x ∈ rows → P x ↔ Q x) → filter P rows = filter Q rows.
Proof.
  induction rows as [|r rows IH]; intros Hext; [done|].
  rewrite !filter_cons, IH by (intros x Hx; apply Hext; by right).
  destruct (Hext r) as [HPQ HQP]; [by left|].
  by repeat case_decide; auto; try done; exfalso; auto.
Qed.

(** With unique keys, removing the keys of the rows that satisfy [Q]
    removes the rows that satisfy [Q]. *)
Lemma kept_pks {A} (pk : A → Z) (Q : A → Prop) `{∀ x, Decision (Q x)}
    (rows : list A) :
  NoDup (pk <$> rows) →
  kept pk (pk <$> filter Q rows) rows = filter (λ x, ¬ Q x) rows.
Proof.
  intros Hnd. unfold kept. apply filter_ext_in. intros x Hx.
  split; intros Hn HQ; apply Hn.
  - apply list_elem_of_fmap. exists x. split; [done|].
    by rewrite list_elem_of_filter.
  - apply list_elem_of_fmap in HQ as (y & Heq & Hy).
    rewrite list_elem_of_filter in Hy. destruct Hy as [HQy Hy].
    by rewrite (NoDup_fmap_eq pk rows x y).
Qed.

Lemma filter_singleton {A} (f : A → Z) (a : Z) (rows : list A) :
  filter (λ x, f x ∈ [a]) rows = filter (λ x, f x = a) rows.
Proof. apply list_filter_iff. intros x. apply list_elem_of_singleton. Qed.

(** The cascade of an application, spelled out. *)
Lemma collect_Application a db :
  let gone_results := Result.pk <$> filter (depends_on a db) (results db) in
  collect db (instance MApplication a) =
  {| c_projects := [];
     c_applications := [a];
     c_benchmarkconfigs :=
       BenchmarkConfig.pk <$>
         filter (λ x, BenchmarkConfig.application x = a) (benchmarkconfigs db);
     c_dbconfs :=
       DBConf.pk <$> filter (λ x, DBConf.application x = a) (dbconfs db);
     c_dbmsmetrics :=
       DBMSMetrics.pk <$>
         filter (λ x, DBMSMetrics.application x = a) (dbmsmetrics db);
     c_results := gone_results;
     c_resultdata :=
       ResultData.pk <$>
         filter (λ x, ResultData.result x ∈ gone_results) (resultdata db);
     c_tasks :=
       Task.pk <$> filter (λ x, Task.result x ∈ gone_results) (tasks db);
     c_statistics :=
       Statistics.pk <$>
         filter (λ x, Statistics.result x ∈ gone_results) (statistics db) |}.
Proof.
  unfold collect. simpl. rewrite filter_elem_of_nil. simpl.
  rewrite !filter_singleton.
  assert (Hr : filter (λ x, Result.application x ∈ [a]
      ∨ Result.benchmark_config x ∈
          (BenchmarkConfig.pk <$>
             filter (λ x, BenchmarkConfig.application x = a)
               (benchmarkconfigs db))
      ∨ Result.dbms_config x ∈
          (DBConf.pk <$> filter (λ x, DBConf.application x = a) (dbconfs db))
      ∨ Result.dbms_metrics x ∈
          (DBMSMetrics.pk <$>
             filter (λ x, DBMSMetrics.application x = a) (dbmsmetrics db)))
      (results db) = filter (depends_on a db) (results db)).
  { apply list_filter_iff. intros x. unfold depends_on.
    by rewrite list_elem_of_singleton. }
  rewrite Hr. reflexivity.
Qed.

(** X5. On a store with unique primary keys, [Application.delete] removes
    the row of the application, the benchmarks, configurations and metrics
    snapshots of the application, the results that depend on it (the results
    of another application that used one of its benchmarks, configurations
    or snapshots among them) with their auxiliary rows, and nothing else. *)
Theorem Application_delete_exact (self : Application.t) (db : DB) :
  unique_keys db →
  let a := Application.pk self in
  let db' := Application_delete self db in
  let gone_results := Result.pk <$> filter (depends_on a db) (results db) in
  projects db' = projects db
  ∧ applications db' = filter (λ x, Application.pk x ≠ a) (applications db)
  ∧ benchmarkconfigs db' =
      filter (λ x, BenchmarkConfig.application x ≠ a) (benchmarkconfigs db)
  ∧ dbconfs db' = filter (λ x, DBConf.application x ≠ a) (dbconfs db)
  ∧ dbmsmetrics db' =
      filter (λ x, DBMSMetrics.application x ≠ a) (dbmsmetrics db)
  ∧ results db' = filter (λ r, ¬ depends_on a db r) (results db)
  ∧ resultdata db' =
      filter (λ x, ResultData.result x ∉ gone_results) (resultdata db)
  ∧ tasks db' = filter (λ x, Task.result x ∉ gone_results) (tasks db)
  ∧ statistics db' =
      filter (λ x, Statistics.result x ∉ gone_results) (statistics db).
Proof.
  intros [] a db' gone_results. subst db'.
  destruct (cascade_tables _ _ _ (Application_delete_inside self db)
              (Application_delete_clear_of self db))
    as [_ _ -> -> -> -> -> -> -> -> ->].
  unfold Model_delete. fold a. rewrite collect_Application. simpl.
  fold gone_results.
  split; [apply kept_nil|].
  split; [apply list_filter_iff; intros x; by rewrite list_elem_of_singleton|].
  repeat split; by apply kept_pks.
Qed.

(** ** Deleting what is not there *)

Lemma filter_none {A} (P : A → Prop) `{∀ x, Decision (P x)} (rows : list A) :
  (∀ x, x ∈ rows → ¬ P x) → filter P rows = [].
Proof.
  induction rows as [|r rows IH]; intros Hn; [done|].
  rewrite filter_cons, decide_False by (apply Hn; by left).
  apply IH. intros x Hx. apply Hn. by right.
Qed.

Lemma kept_none {A} (pk : A → Z) ks (rows : list A) :
  (∀ x, x ∈ rows → pk x ∉ ks) → kept pk ks rows = rows.
Proof.
  induction rows as [|r rows IH]; intros Hn; [done|]. unfold kept.
  rewrite filter_cons, decide_True by (apply Hn; by left).
  f_equal. apply IH. intros x Hx. apply Hn. by right.
Qed.

Lemma gone_none {A} m (pk : A → Z) ks (rows : list A) :
  (∀ x, x ∈ rows → pk x ∉ ks) → gone m pk ks rows = [].
Proof. intros Hn. unfold gone. by rewrite filter_none. Qed.

Lemma collect_clear seed db : clear_of seed db → collect db seed = seed.
Proof.
  intros []. unfold collect.
  rewrite (filter_none (λ x, Application.project x ∈ c_projects seed))
    by done. simpl. rewrite app_nil_r.
  rewrite (filter_none (λ x, BenchmarkConfig.application x ∈ _)) by done.
  rewrite (filter_none (λ x, DBConf.application x ∈ _)) by done.
  rewrite (filter_none (λ x, DBMSMetrics.application x ∈ _)) by done.
  simpl. rewrite !app_nil_r.
  rewrite (filter_none (λ x, Result.application x ∈ _ ∨ _)).
  2:{ intros x Hx [?|[?|[?|?]]].
      - by apply (co_result_application0 x).
      - by apply (co_result_benchmark_config0 x).
      - by apply (co_result_dbms_config0 x).
      - by apply (co_result_dbms_metrics0 x). }
  simpl. rewrite !app_nil_r.
  rewrite (filter_none (λ x, ResultData.result x ∈ _)) by done.
  rewrite (filter_none (λ x, Task.result x ∈ _)) by done.
  rewrite (filter_none (λ x, Statistics.result x ∈ _)) by done.
  simpl. rewrite !app_nil_r. by destruct seed.
Qed.

Lemma Model_delete_absent m k db :
  clear_of (instance m k) db → Model_delete m k db = db.
Proof.
  intros Hc. unfold Model_delete. rewrite (collect_clear _ _ Hc).
  destruct Hc. unfold Collector_delete, Collector_journal.
  rewrite !kept_none, !gone_none by done. simpl. rewrite app_nil_r.
  by destruct db.
Qed.

Lemma cleared_clear_of a s :
  cleared a s → clear_of (instance MApplication a) s.
Proof.
  intros [Kc Km Kr Kb Ka].
  split; simpl; intros x Hx Hin;
    try (by apply elem_of_nil in Hin);
    apply list_elem_of_singleton in Hin.
  - by apply (Ka x).
  - by apply (Kb x).
  - by apply (Kc x).
  - by apply (Km x).
  - by apply (Kr x).
Qed.

(** X6. Deleting what is not there changes nothing, the journal included:
    [Application.delete] on an application of which the store holds neither
    the row nor a row that points to it, and [Project.delete] on a project
    of which the store holds neither the row nor an application. *)
Theorem delete_absent (db : DB) :
  (∀ self : Application.t,
     cleared (Application.pk self) db → Application_delete self db = db)
  ∧ (∀ self : Project.t,
       (∀ x, x ∈ projects db → Project.pk x ≠ Project.pk self) →
       (∀ x, x ∈ applications db → Application.project x ≠ Project.pk self) →
       Project_delete self db = db).
Proof.
  split.
  - intros self Hc. rewrite Application_delete_unfold.
    unfold Application_delete_loops. destruct Hc as [Kc Km Kr Kb Ka].
    rewrite (filter_none (λ t, DBConf.application t = _)) by done. simpl.
    rewrite (filter_none (λ r, Result.application r = _)) by done. simpl.
    rewrite (filter_none (λ x, BenchmarkConfig.application x = _)) by done.
    simpl. apply Model_delete_absent, cleared_clear_of. by split.
  - intros self Hp Ha. unfold Project_delete.
    rewrite (filter_none (λ x, Application.project x = _)) by done. simpl.
    apply Model_delete_absent.
    split; simpl; intros x Hx Hin;
      try (by apply elem_of_nil in Hin);
      apply list_elem_of_singleton in Hin.
    + by apply (Hp x).
    + by apply (Ha x).
Qed.

(** * The view helpers, further *)

Section ViewLoopMore.
Context {F Item M : Type}.
Variable name : Item → string.
Variable matching : Item → bool.
Variable compute : pyval F → result (pyval F).
Variable setitem : string → pyval F → M → M.
Variable getitem : string → M → option (pyval F).
Hypothesis getitem_setitem : ∀ k k' v m,
  getitem k (setitem k' v m) = if decide (k' = k) then Some v else getitem k m.

(** Whether the loop raises, and what, depends neither on the flag nor on
    what was stored before. *)
Lemma view_loop_raise_indep config include_all include_all' items acc acc' e :
  view_loop name matching compute setitem config include_all items acc
    = Raise e →
  view_loop name matching compute setitem config include_all' items acc'
    = Raise e.
Proof.
  revert acc acc'. induction items as [|i items IH]; intros acc acc'; simpl;
    [done|].
  destruct (matching i).
  - destruct (py_getitem config (name i)) as [v|]; simpl; [|done].
    destruct (compute v) as [x|]; simpl; [|done]. apply IH.
  - destruct include_all, include_all'; apply IH.
Qed.

(** The names under which a returning loop stored something. *)
Lemma view_loop_keys config include_all items acc res :
  view_loop name matching compute setitem config include_all items acc
    = Ok res →
  ∀ k, is_Some (getitem k res) ↔
       is_Some (getitem k acc)
       ∨ ∃ i, i ∈ items ∧ (matching i = true ∨ include_all = true)
              ∧ name i = k.
Proof.
  revert acc. induction items as [|i items IH]; intros acc Hres k.
  { simpl in Hres. injection Hres as ->. split; [by left|].
    intros [?|(i & Hi & _)]; [done|by apply elem_of_nil in Hi]. }
  simpl in Hres.
  assert (Hstep : ∀ v, is_Some (getitem k (setitem (name i) v acc)) ↔
                       is_Some (getitem k acc) ∨ name i = k).
  { intros v. rewrite getitem_setitem. case_decide.
    - split; [by right|by eexists].
    - split; [by left|by intros [?|?]]. }
  destruct (matching i) eqn:Hm.
  - destruct (py_getitem config (name i)) as [v|]; simpl in Hres; [|done].
    destruct (compute v) as [x|]; simpl in Hres; [|done].
    rewrite (IH _ Hres k), Hstep. split.
    + intros [[?|?]|(j & Hj & ? & ?)]; [by left|right..].
      * exists i. split; [by left|]. by split; [left|].
      * exists j. split; [by right|done].
    + intros [?|(j & [->|Hj]%elem_of_cons & ? & ?)]; [by left; left|..].
      * by left; right.
      * right. by exists j.
  - destruct include_all eqn:Hia.
    + rewrite (IH _ Hres k), Hstep. split.
      * intros [[?|?]|(j & Hj & ? & ?)]; [by left|right..].
        -- exists i. split; [by left|]. by split; [right|].
        -- exists j. split; [by right|done].
      * intros [?|(j & [->|Hj]%elem_of_cons & ? & ?)]; [by left; left|..].
        -- by left; right.
        -- right. by exists j.
    + rewrite (IH _ Hres k). split.
      * intros [?|(j & Hj & ? & ?)]; [by left|right].
        exists j. split; [by right|done].
      * intros [?|(j & [->|Hj]%elem_of_cons & Hor & ?)];
          [by left|destruct Hor; congruence|right; by exists j].
Qed.
End ViewLoopMore.

Section WebsiteMore.
Context {F : Type} `{PyFloat F}.
Context `{Fields MetricCatalog.t} `{Fields BenchmarkConfig.t}
  `{Fields DBMSMetrics.t}.
Variables MetricType_COUNTER VarType_INTEGER : Z.
Variable JSONUtil_loads : string → option (pyval F).

(** X7. The helpers read the catalogs and the record, and no deletion
    touches a catalog: what a helper returns or raises for a record is the
    same before and after [Application.delete] or [Project.delete] of any
    instance. *)
Theorem delete_keeps_views (db : DB) :
  (∀ (gone : Application.t) (self : DBConf.t) include_all,
     get_tuning_configuration JSONUtil_loads (Application_delete gone db)
       self include_all
     = get_tuning_configuration JSONUtil_loads db self include_all)
  ∧ (∀ (gone : Project.t) (self : DBConf.t) include_all,
       get_tuning_configuration JSONUtil_loads (Project_delete gone db)
         self include_all
       = get_tuning_configuration JSONUtil_loads db self include_all)
  ∧ (∀ (gone : Application.t) (self : DBMSMetrics.t) include_all,
       get_normalized_configuration MetricType_COUNTER JSONUtil_loads
         (Application_delete gone db) self include_all
       = get_normalized_configuration MetricType_COUNTER JSONUtil_loads
           db self include_all)
  ∧ (∀ (gone : Project.t) (self : DBMSMetrics.t) include_all,
       get_normalized_configuration MetricType_COUNTER JSONUtil_loads
         (Project_delete gone db) self include_all
       = get_normalized_configuration MetricType_COUNTER JSONUtil_loads
           db self include_all).
Proof.
  assert (HA : ∀ gone, pruned db (Application_delete gone db)).
  { intros gone. by destruct (deletes_invariants _ _ _
                               (Application_delete_reached gone db)). }
  assert (HP : ∀ gone, pruned db (Project_delete gone db)).
  { intros gone. by destruct (deletes_invariants _ _ _
                               (Project_delete_reached gone db)). }
  repeat split; intros gone self include_all;
    unfold get_tuning_configuration, get_normalized_configuration.
  - by rewrite (pr_knobcatalog _ _ (HA gone)).
  - by rewrite (pr_knobcatalog _ _ (HP gone)).
  - by rewrite (pr_metriccatalog _ _ (HA gone)).
  - by rewrite (pr_metriccatalog _ _ (HP gone)).
Qed.

(** X8. The flag decides neither whether a helper raises nor what it
    raises. *)
Theorem include_all_same_error (db : DB) (include_all include_all' : bool)
    (e : exn) :
  (∀ self : DBConf.t,
     get_tuning_configuration JSONUtil_loads db self include_all = Raise e ↔
     get_tuning_configuration JSONUtil_loads db self include_all' = Raise e)
  ∧ (∀ self : DBMSMetrics.t,
       get_normalized_configuration MetricType_COUNTER JSONUtil_loads
         db self include_all = Raise e ↔
       get_normalized_configuration MetricType_COUNTER JSONUtil_loads
         db self include_all' = Raise e).
Proof.
  split; intros self.
  - unfold get_tuning_configuration, loads.
    destruct (JSONUtil_loads (DBConf.configuration self)); simpl; [|done].
    rewrite !tuning_loop_view. split; apply view_loop_raise_indep.
  - unfold get_normalized_configuration, loads.
    destruct (JSONUtil_loads (DBMSMetrics.configuration self)); simpl; [|done].
    rewrite !normalized_loop_view. split; apply view_loop_raise_indep.
Qed.

(** X9. The keys of what a helper returns are exactly the names of the
    catalog rows of the record's [dbms] that match, and with [include_all]
    the names of all the catalog rows of the record's [dbms]. *)
Theorem view_keys (db : DB) (include_all : bool) :
  (∀ (self : DBConf.t) (params : gmap string (pyval F)),
     get_tuning_configuration JSONUtil_loads db self include_all = Ok params →
     ∀ k, is_Some (params !! k) ↔
          ∃ p, p ∈ knobcatalog db ∧ KnobCatalog.dbms p = DBConf.dbms self
               ∧ (KnobCatalog.tunable p = true ∨ include_all = true)
               ∧ KnobCatalog.name p = k)
  ∧ (∀ (self : DBMSMetrics.t) (norm_metrics : list (string * pyval F)),
       get_normalized_configuration MetricType_COUNTER JSONUtil_loads
         db self include_all = Ok norm_metrics →
       ∀ k, is_Some (od_getitem k norm_metrics) ↔
            ∃ m, m ∈ metriccatalog db
                 ∧ MetricCatalog.dbms m = DBMSMetrics.dbms self
                 ∧ (MetricCatalog.metric_type m = MetricType_COUNTER
                    ∨ include_all = true)
                 ∧ MetricCatalog.name m = k).
Proof.
  split.
  - intros self params Hret k.
    unfold get_tuning_configuration, loads in Hret.
    destruct (JSONUtil_loads (DBConf.configuration self)) as [config|];
      simpl in Hret; [|done].
    rewrite tuning_loop_view in Hret.
    rewrite (view_loop_keys _ _ _ _ (λ k (m : gmap string (pyval F)), m !! k)
               (lookup_insert_law) _ _ _ _ _ Hret k).
    rewrite lookup_empty. split.
    + intros [[? ?]|(p & [? ?]%list_elem_of_filter & ? & ?)]; [done|].
      by exists p.
    + intros (p & ? & ? & ? & ?). right. exists p.
      by rewrite list_elem_of_filter.
  - intros self norm Hret k.
    unfold get_normalized_configuration, loads in Hret.
    destruct (JSONUtil_loads (DBMSMetrics.configuration self)) as [config|];
      simpl in Hret; [|done].
    rewrite normalized_loop_view in Hret.
    rewrite (view_loop_keys _ _ _ _ od_getitem od_getitem_setitem
               _ _ _ _ _ Hret k). simpl.
    unfold is_counter. split.
    + intros [[? ?]|(m & [? ?]%list_elem_of_filter & Hor & ?)]; [done|].
      exists m. rewrite bool_decide_eq_true in Hor. done.
    + intros (m & ? & ? & Hor & ?). right. exists m.
      rewrite list_elem_of_filter, bool_decide_eq_true. done.
Qed.

Lemma od_setitem_fresh {V} (k : string) (v : V) (d : list (string * V)) :
  k ∉ d.*1 → od_setitem k v d = d ++ [(k, v)].
Proof.
  induction d as [|[k' v'] d IH]; intros Hk; simpl; [done|].
  rewrite fmap_cons in Hk. apply not_elem_of_cons in Hk as [Hne Hk].
  rewrite decide_False by done. by rewrite IH.
Qed.

Lemma normalized_loop_order config t include_all items acc res :
  NoDup (acc.*1 ++ (MetricCatalog.name <$> items)) →
  normalized_loop MetricType_COUNTER config t include_all items acc = Ok res →
  res.*1 = acc.*1 ++
    (MetricCatalog.name <$>
       filter (λ m, MetricCatalog.metric_type m = MetricType_COUNTER
                    ∨ include_all = true) items).
Proof.
  revert acc. induction items as [|m items IH]; intros acc Hnd Hres.
  { simpl in Hres. injection Hres as ->. by rewrite app_nil_r. }
  simpl in Hres. rewrite fmap_cons in Hnd.
  assert (Hfresh : MetricCatalog.name m ∉ acc.*1).
  { apply NoDup_app in Hnd as (_ & Hd & _). intros Hin.
    apply (Hd _ Hin). constructor. }
  assert (Hnd' : ∀ v, NoDup ((od_setitem (MetricCatalog.name m) v acc).*1
                             ++ (MetricCatalog.name <$> items))).
  { intros v. rewrite od_setitem_fresh, fmap_app by done. simpl.
    by rewrite <- app_assoc. }
  assert (Hskip : NoDup (acc.*1 ++ (MetricCatalog.name <$> items))).
  { apply NoDup_app in Hnd as (H1' & H2' & H3'%NoDup_cons).
    apply NoDup_app. split; [done|]. split; [|by destruct H3'].
    intros x Hx Hin. apply (H2' x Hx). by right. }
  rewrite filter_cons. case_decide as Hm.
  - destruct (py_getitem config (MetricCatalog.name m)) as [v|];
      simpl in Hres; [|done].
    destruct (py_float v) as [x|]; simpl in Hres; [|done].
    destruct (float_truediv x t) as [q|]; simpl in Hres; [|done].
    rewrite decide_True by by left.
    rewrite (IH _ (Hnd' _) Hres), od_setitem_fresh, fmap_app by done.
    simpl. by rewrite <- app_assoc.
  - destruct include_all.
    + rewrite decide_True by by right.
      rewrite (IH _ (Hnd' _) Hres), od_setitem_fresh, fmap_app by done.
      simpl. by rewrite <- app_assoc.
    + rewrite decide_False by (by intros [?|?]). by apply IH.
Qed.

(** X10. When the catalog rows of the record's [dbms] have distinct names,
    the keys of what [get_normalized_configuration] returns come in the
    order of the catalog: the names of the counter metrics, and with
    [include_all] the names of all the rows. *)
Theorem get_normalized_configuration_order
    (db : DB) (self : DBMSMetrics.t) (include_all : bool)
    (norm_metrics : list (string * pyval F)) :
  NoDup (MetricCatalog.name <$>
           filter (λ m, MetricCatalog.dbms m = DBMSMetrics.dbms self)
             (metriccatalog db)) →
  get_normalized_configuration MetricType_COUNTER JSONUtil_loads
    db self include_all = Ok norm_metrics →
  norm_metrics.*1 =
    MetricCatalog.name <$>
      filter (λ m, MetricCatalog.metric_type m = MetricType_COUNTER
                   ∨ include_all = true)
        (filter (λ m, MetricCatalog.dbms m = DBMSMetrics.dbms self)
           (metriccatalog db)).
Proof.
  intros Hnd Hret. unfold get_normalized_configuration, loads in Hret.
  destruct (JSONUtil_loads (DBMSMetrics.configuration self)) as [config|];
    simpl in Hret; [|done].
  by apply normalized_loop_order in Hret.
Qed.


Lemma tuning_loop_nothing config items (params : gmap string (pyval F)) :
  (∀ p, p ∈ items → KnobCatalog.tunable p = false) →
  tuning_loop config false items params = Ok params.
Proof.
  induction items as [|p items IH]; intros Hn; simpl; [done|].
  rewrite (Hn p) by constructor. apply IH. intros q Hq. apply Hn. by right.
Qed.

Lemma normalized_loop_nothing config t items (acc : list (string * pyval F)) :
  (∀ m, m ∈ items → MetricCatalog.metric_type m ≠ MetricType_COUNTER) →
  normalized_loop MetricType_COUNTER config t false items acc = Ok acc.
Proof.
  induction items as [|m items IH]; intros Hn; simpl; [done|].
  rewrite decide_False by (apply Hn; constructor).
  apply IH. intros q Hq. apply Hn. by right.
Qed.

(** X12. Nothing to look up: for a record whose [dbms] has no tunable knob
    (no counter metric) in the catalog, the helper without [include_all]
    returns the empty mapping whatever JSON value the blob holds, an object or
    not, and whatever [execution_time] is. *)
Theorem view_nothing_to_store (db : DB) :
  (∀ (self : DBConf.t) config,
     JSONUtil_loads (DBConf.configuration self) = Some config →
     (∀ p, p ∈ knobcatalog db → KnobCatalog.dbms p = DBConf.dbms self →
           KnobCatalog.tunable p = false) →
     get_tuning_configuration JSONUtil_loads db self false = Ok ∅)
  ∧ (∀ (self : DBMSMetrics.t) config,
       JSONUtil_loads (DBMSMetrics.configuration self) = Some config →
       (∀ m, m ∈ metriccatalog db →
             MetricCatalog.dbms m = DBMSMetrics.dbms self →
             MetricCatalog.metric_type m ≠ MetricType_COUNTER) →
       get_normalized_configuration MetricType_COUNTER JSONUtil_loads
         db self false = Ok []).
Proof.
  split; intros self config Hl Hn.
  - unfold get_tuning_configuration, loads. rewrite Hl. simpl.
    apply tuning_loop_nothing.
    intros p [? ?]%list_elem_of_filter. by apply Hn.
  - unfold get_normalized_configuration, loads. rewrite Hl. simpl.
    apply normalized_loop_nothing.
    intros m [? ?]%list_elem_of_filter. by apply Hn.
Qed.

(** X13. What the three [clean_fields] accept: a record passes if and only
    if it passes the inherited checks and the check of the override; and an
    error of the inherited checks is raised as it is, the check of the
    override not being reached. *)
Theorem clean_fields_accepts (exclude : option (list string)) :
  (∀ self : MetricCatalog.t,
     (MetricCatalog_clean_fields MetricType_COUNTER VarType_INTEGER
        self exclude = Ok tt ↔
      Model_clean_fields self exclude = Ok tt
      ∧ ¬ (MetricCatalog.metric_type self = MetricType_COUNTER
           ∧ MetricCatalog.vartype self ≠ VarType_INTEGER))
     ∧ (∀ e, Model_clean_fields self exclude = Raise e →
             MetricCatalog_clean_fields MetricType_COUNTER VarType_INTEGER
               self exclude = Raise e))
  ∧ (∀ self : BenchmarkConfig.t,
       (BenchmarkConfig_clean_fields self exclude = Ok tt ↔
        Model_clean_fields self exclude = Ok tt
        ∧ 0 < BenchmarkConfig.time self)
       ∧ (∀ e, Model_clean_fields self exclude = Raise e →
               BenchmarkConfig_clean_fields self exclude = Raise e))
  ∧ (∀ self : DBMSMetrics.t,
       (DBMSMetrics_clean_fields self exclude = Ok tt ↔
        Model_clean_fields self exclude = Ok tt
        ∧ 0 < DBMSMetrics.execution_time self)
       ∧ (∀ e, Model_clean_fields self exclude = Raise e →
               DBMSMetrics_clean_fields self exclude = Raise e)).
Proof.
  split; [|split]; intros self; split.
  - unfold MetricCatalog_clean_fields.
    destruct (Model_clean_fields self exclude) as [[]|e]; simpl.
    + case_decide; split; try done; by intros [_ ?].
    + split; [done|by intros [? _]].
  - intros e He. unfold MetricCatalog_clean_fields. by rewrite He.
  - unfold BenchmarkConfig_clean_fields.
    destruct (Model_clean_fields self exclude) as [[]|e]; simpl.
    + case_decide; split; try done; [intros [_ ?]; lia|intros _; split; [done|lia]].
    + split; [done|by intros [? _]].
  - intros e He. unfold BenchmarkConfig_clean_fields. by rewrite He.
  - unfold DBMSMetrics_clean_fields.
    destruct (Model_clean_fields self exclude) as [[]|e]; simpl.
    + case_decide; split; try done; [intros [_ ?]; lia|intros _; split; [done|lia]].
    + split; [done|by intros [? _]].
  - intros e He. unfold DBMSMetrics_clean_fields. by rewrite He.
Qed.

End WebsiteMore.

(** ** What [Project.delete] removes, row by row *)

(** The result depends on one of the applications [apps]. *)
Definition depends_on_any (apps : list Z) (db : DB) (r : Result.t) : Prop :=
  Result.application r ∈ apps
  ∨ Result.benchmark_config r ∈
      (BenchmarkConfig.pk <$>
         filter (λ x, BenchmarkConfig.application x ∈ apps)
           (benchmarkconfigs db))
  ∨ Result.dbms_config r ∈
      (DBConf.pk <$> filter (λ x, DBConf.application x ∈ apps) (dbconfs db))
  ∨ Result.dbms_metrics r ∈
      (DBMSMetrics.pk <$>
         filter (λ x, DBMSMetrics.application x ∈ apps) (dbmsmetrics db)).

#[local] Instance depends_on_any_dec apps db r :
  Decision (depends_on_any apps db r).
Proof. unfold depends_on_any. apply _. Defined.

Lemma collect_Project p db :
  let apps :=
    Application.pk <$>
      filter (λ x, Application.project x = p) (applications db) in
  let gone_results :=
    Result.pk <$> filter (depends_on_any apps db) (results db) in
  collect db (instance MProject p) =
  {| c_projects := [p];
     c_applications := apps;
     c_benchmarkconfigs :=
       BenchmarkConfig.pk <$>
         filter (λ x, BenchmarkConfig.application x ∈ apps)
           (benchmarkconfigs db);
     c_dbconfs :=
       DBConf.pk <$> filter (λ x, DBConf.application x ∈ apps) (dbconfs db);
     c_dbmsmetrics :=
       DBMSMetrics.pk <$>
         filter (λ x, DBMSMetrics.application x ∈ apps) (dbmsmetrics db);
     c_results := gone_results;
     c_resultdata :=
       ResultData.pk <$>
         filter (λ x, ResultData.result x ∈ gone_results) (resultdata db);
     c_tasks :=
       Task.pk <$> filter (λ x, Task.result x ∈ gone_results) (tasks db);
     c_statistics :=
       Statistics.pk <$>
         filter (λ x, Statistics.result x ∈ gone_results) (statistics db) |}.
Proof. unfold collect. simpl. by rewrite !filter_singleton. Qed.

(** X14. On a store with unique primary keys, [Project.delete] removes the
    row of the project, its applications, their benchmarks, configurations
    and metrics snapshots, the results that depend on one of them with their
    auxiliary rows, and nothing else. *)
Theorem Project_delete_exact (self : Project.t) (db : DB) :
  unique_keys db →
  let p := Project.pk self in
  let db' := Project_delete self db in
  let apps :=
    Application.pk <$>
      filter (λ x, Application.project x = p) (applications db) in
  let gone_results :=
    Result.pk <$> filter (depends_on_any apps db) (results db) in
  projects db' = filter (λ x, Project.pk x ≠ p) (projects db)
  ∧ applications db' =
      filter (λ x, Application.project x ≠ p) (applications db)
  ∧ benchmarkconfigs db' =
      filter (λ x, BenchmarkConfig.application x ∉ apps) (benchmarkconfigs db)
  ∧ dbconfs db' = filter (λ x, DBConf.application x ∉ apps) (dbconfs db)
  ∧ dbmsmetrics db' =
      filter (λ x, DBMSMetrics.application x ∉ apps) (dbmsmetrics db)
  ∧ results db' = filter (λ r, ¬ depends_on_any apps db r) (results db)
  ∧ resultdata db' =
      filter (λ x, ResultData.result x ∉ gone_results) (resultdata db)
  ∧ tasks db' = filter (λ x, Task.result x ∉ gone_results) (tasks db)
  ∧ statistics db' =
      filter (λ x, Statistics.result x ∉ gone_results) (statistics db).
Proof.
  intros [] p db' apps gone_results. subst db'.
  destruct (cascade_tables _ _ _ (Project_delete_inside self db)
              (Project_delete_clear_of self db))
    as [_ _ -> -> -> -> -> -> -> -> ->].
  unfold Model_delete. fold p. rewrite collect_Project. simpl.
  fold apps. fold gone_results.
  split; [apply list_filter_iff; intros x; by rewrite list_elem_of_singleton|].
  repeat split; by apply kept_pks.
Qed.

(** * [Result.__unicode__] *)

(** [unicode(self.pk)] (lines 215-216): the decimal numeral of the key. *)
Definition Result___unicode__ (self : Result.t) : string :=
  pretty (Result.pk self).

(** X15. In a store with unique primary keys the label of a result
    identifies it: two results of the store with the same label are the same
    row. *)
Theorem Result_unicode_identifies (db : DB) (r1 r2 : Result.t) :
  unique_keys db → r1 ∈ results db → r2 ∈ results db →
  Result___unicode__ r1 = Result___unicode__ r2 → r1 = r2.
Proof.
  intros [] H1 H2 Heq. apply (NoDup_fmap_eq Result.pk (results db)); try done.
  by apply (inj pretty).
Qed.

(** * The journal, further *)

(** The keys of the rows of a model. *)
Definition keys (m : Model) (db : DB) : list Z :=
  match m with
  | MProject => Project.pk <$> projects db
  | MApplication => Application.pk <$> applications db
  | MBenchmarkConfig => BenchmarkConfig.pk <$> benchmarkconfigs db
  | MDBConf => DBConf.pk <$> dbconfs db
  | MDBMSMetrics => DBMSMetrics.pk <$> dbmsmetrics db
  | MResult => Result.pk <$> results db
  | MResultData => ResultData.pk <$> resultdata db
  | MTask => Task.pk <$> tasks db
  | MStatistics => Statistics.pk <$> statistics db
  end.

Section Gone.
Context {A : Type} (m : Model) (pk : A → Z).

Lemma elem_of_gone_iff ks (rows : list A) m' k :
  (m', k) ∈ gone m pk ks rows ↔ m' = m ∧ k ∈ (pk <$> rows) ∧ k ∈ ks.
Proof.
  unfold gone. rewrite !list_elem_of_fmap. split.
  - intros (x & [= -> ->] & [? ?]%list_elem_of_filter). eauto.
  - intros (-> & (x & -> & ?) & ?). exists x.
    by rewrite list_elem_of_filter.
Qed.

Lemma elem_of_keys_kept ks (rows : list A) k :
  k ∈ (pk <$> kept pk ks rows) ↔ k ∈ (pk <$> rows) ∧ k ∉ ks.
Proof.
  rewrite !list_elem_of_fmap. split.
  - intros (x & -> & [? ?]%elem_of_kept). eauto.
  - intros ((x & -> & ?) & ?). exists x. by rewrite elem_of_kept.
Qed.

Lemma NoDup_keys_filter (P : A → Prop) `{∀ x, Decision (P x)}
    (rows : list A) :
  NoDup (pk <$> rows) → NoDup (pk <$> filter P rows).
Proof.
  intros Hnd. apply (sublist_NoDup _ (pk <$> rows)); [exact Hnd|].
  apply fmap_sublist, sublist_filter.
Qed.

Lemma NoDup_gone ks (rows : list A) :
  NoDup (pk <$> rows) → NoDup (gone m pk ks rows).
Proof.
  intros Hnd. unfold gone.
  replace ((λ x, (m, pk x)) <$> filter (λ x, pk x ∈ ks) rows)
    with (pair m <$> (pk <$> filter (λ x, pk x ∈ ks) rows))
    by (by rewrite <- list_fmap_compose).
  apply NoDup_fmap; [by intros ?? [= ?]|]. by apply NoDup_keys_filter.
Qed.
End Gone.

Lemma elem_of_Collector_journal c s m k :
  (m, k) ∈ Collector_journal c s ↔ k ∈ keys m s ∧ k ∈ gathered c m.
Proof.
  unfold Collector_journal. rewrite !elem_of_app, !elem_of_gone_iff.
  destruct m; simpl; intuition congruence.
Qed.

Lemma keys_Collector_delete c s m k :
  k ∈ keys m (Collector_delete c s) ↔ k ∈ keys m s ∧ k ∉ gathered c m.
Proof. destruct m; simpl; apply elem_of_keys_kept. Qed.

Lemma unique_keys_pruned db0 s : pruned db0 s → unique_keys db0 → unique_keys s.
Proof.
  intros [_ _ [? E1] [? E2] [? E3] [? E4] [? E5] [? E6] [? E7] [? E8] [? E9]] [].
  split; rewrite ?E1, ?E2, ?E3, ?E4, ?E5, ?E6, ?E7, ?E8, ?E9;
    by apply NoDup_keys_filter.
Qed.

Lemma NoDup_Collector_journal c s :
  unique_keys s → NoDup (Collector_journal c s).
Proof.
  intros []. unfold Collector_journal.
  repeat (apply NoDup_app; split; [|split]);
    try (by apply NoDup_gone);
    intros [m k] Hin Hin';
    rewrite ?elem_of_app, !elem_of_gone_iff in Hin;
    rewrite ?elem_of_app, !elem_of_gone_iff in Hin';
    destruct m; intuition congruence.
Qed.

(** The journal of a sequence of base deletions lists the keys the tables
    lost, each once when keys are unique. *)
Lemma deletes_journal ok db0 s :
  deletes ok db0 s →
  ∃ l, journal s = journal db0 ++ l
       ∧ (∀ m k, (m, k) ∈ l ↔ k ∈ keys m db0 ∧ k ∉ keys m s)
       ∧ (unique_keys db0 → NoDup l).
Proof.
  induction 1 as [|s m0 k0 Hd (l & Hj & Hl & Hnd) _].
  { exists []. split; [by rewrite app_nil_r|]. split; [|constructor].
    intros m k. split; [by intros ?%elem_of_nil|by intros [? ?]]. }
  set (c := collect s (instance m0 k0)).
  assert (Hsub : ∀ m k, k ∈ keys m s → k ∈ keys m db0).
  { destruct (deletes_invariants _ _ _ Hd) as (_ & _ & l' & He).
    intros m k. destruct m; simpl; rewrite !list_elem_of_fmap;
      intros (x & -> & Hx); exists x; (split; [done|]).
    - by apply (ev_projects _ _ _ He).
    - by apply (ev_applications _ _ _ He).
    - by apply (ev_benchmarkconfigs _ _ _ He).
    - by apply (ev_dbconfs _ _ _ He).
    - by apply (ev_dbmsmetrics _ _ _ He).
    - by apply (ev_results _ _ _ He).
    - by apply (ev_resultdata _ _ _ He).
    - by apply (ev_tasks _ _ _ He).
    - by apply (ev_statistics _ _ _ He). }
  exists (l ++ Collector_journal c s). split; [|split].
  - unfold Model_delete. simpl. fold c. by rewrite Hj, app_assoc.
  - intros m k. unfold Model_delete. fold c.
    rewrite elem_of_app, Hl, elem_of_Collector_journal,
      keys_Collector_delete.
    split.
    + intros [[? ?]|[? ?]]; [split; [done|tauto]|].
      split; [by apply Hsub|tauto].
    + intros [? Hn]. destruct (decide (k ∈ keys m s)); [|by left].
      right. split; [done|]. destruct (decide (k ∈ gathered c m)); [done|].
      destruct Hn. by split.
  - intros Huk. apply NoDup_app. split; [by apply Hnd|]. split.
    + intros [m k] [_ Hn]%Hl [? _]%elem_of_Collector_journal. by apply Hn.
    + apply NoDup_Collector_journal.
      eapply unique_keys_pruned; [|exact Huk].
      by destruct (deletes_invariants _ _ _ Hd).
Qed.

Lemma same_tables_keys s s' m : same_tables s s' → keys m s = keys m s'.
Proof. intros []. destruct m; simpl; congruence. Qed.

(** X16. On a store with unique primary keys each row [Application.delete]
    or [Project.delete] removes is entered in the journal once, and the
    entries are those of the base [delete] of the instance alone, in another
    order. *)
Theorem delete_journal_permutation (db : DB) :
  unique_keys db →
  (∀ self : Application.t, ∃ l l',
     journal (Application_delete self db) = journal db ++ l
     ∧ journal (Model_delete MApplication (Application.pk self) db)
       = journal db ++ l'
     ∧ NoDup l ∧ l ≡ₚ l')
  ∧ (∀ self : Project.t, ∃ l l',
       journal (Project_delete self db) = journal db ++ l
       ∧ journal (Model_delete MProject (Project.pk self) db)
         = journal db ++ l'
       ∧ NoDup l ∧ l ≡ₚ l').
Proof.
  intros Huk.
  assert (Hgen : ∀ s m k, deletes any_instance db s →
            same_tables s (Model_delete m k db) →
            ∃ l l', journal s = journal db ++ l
                    ∧ journal (Model_delete m k db) = journal db ++ l'
                    ∧ NoDup l ∧ l ≡ₚ l').
  { intros s m k Hd Hst.
    destruct (deletes_journal _ _ _ Hd) as (l & Hj & Hl & Hnd).
    destruct (deletes_journal any_instance db (Model_delete m k db))
      as (l' & Hj' & Hl' & Hnd'); [by repeat constructor|].
    exists l, l'. repeat (split; [auto|]).
    apply NoDup_Permutation; [auto..|].
    intros [m' k']. by rewrite Hl, Hl', (same_tables_keys _ _ _ Hst). }
  split; intros self; apply Hgen.
  - apply Application_delete_reached.
  - apply cascade_tables;
      [apply Application_delete_inside|apply Application_delete_clear_of].
  - apply Project_delete_reached.
  - apply cascade_tables;
      [apply Project_delete_inside|apply Project_delete_clear_of].
Qed.

(** * The module constants *)

(** [PLOTTABLE_FIELDS] (lines 249-260). *)
Definition PLOTTABLE_FIELDS : list string :=
  ["throughput"; "p99_latency"; "p95_latency"; "p90_latency"; "avg_latency";
   "p50_latency"; "max_latency"; "p75_latency"; "p25_latency"; "min_latency"].

(** The float literal [0.001]: the binary64 number nearest to it. *)
Definition float_0_001 : PrimFloat.float :=
  FloatOps.SF2Prim (SpecFloat.S754_finite false 4611686018427388 (-62)).

(** One value of [METRIC_META]: a [dict] with the four keys. *)
Definition metric_meta (unit : string) (lessisbetter : bool)
    (scale : pyval PrimFloat.float) (print : string)
  : pyval PrimFloat.float :=
  PDict (<["unit" := PStr unit]>
        (<["lessisbetter" := PBool lessisbetter]>
        (<["scale" := scale]>
        (<["print" := PStr print]> ∅)))).

(** [METRIC_META] (lines 262-273). *)
Definition METRIC_META : pyval PrimFloat.float :=
  let latency := metric_meta "milliseconds" true (PFloat float_0_001) in
  PDict (list_to_map
    [("throughput",
      metric_meta "transactions/second" false (PInt 1) "Throughput");
     ("p99_latency", latency "99% Latency");
     ("p95_latency", latency "95% Latency");
     ("p90_latency", latency "90% Latency");
     ("p75_latency", latency "75% Latency");
     ("p50_latency", latency "Med. Latency");
     ("p25_latency", latency "25% Latency");
     ("min_latency", latency "Min Latency");
     ("avg_latency", latency "Avg. Latency");
     ("max_latency", latency "Max Latency")]).

(** X17. [METRIC_META] and [PLOTTABLE_FIELDS] agree: the plottable fields
    are distinct, [METRIC_META[field]] is defined exactly for them, and its
    four entries are there, with [lessisbetter] false for ["throughput"]
    only. *)
Theorem METRIC_META_PLOTTABLE_FIELDS :
  NoDup PLOTTABLE_FIELDS
  ∧ ∀ field : string,
      (field ∈ PLOTTABLE_FIELDS →
       ∃ meta unit scale print,
         py_getitem METRIC_META field = Ok meta
         ∧ py_getitem meta "unit" = Ok (PStr unit)
         ∧ py_getitem meta "scale" = Ok scale
         ∧ py_getitem meta "print" = Ok (PStr print)
         ∧ py_getitem meta "lessisbetter"
           = Ok (PBool (negb (bool_decide (field = "throughput")))))
      ∧ (field ∉ PLOTTABLE_FIELDS →
         py_getitem METRIC_META field = Raise (KeyError field)).
Proof.
  split; [apply (bool_decide_unpack _); vm_compute; exact I|].
  intros field. split.
  - intros Hin. unfold PLOTTABLE_FIELDS in Hin.
    repeat (apply elem_of_cons in Hin as [->|Hin]);
      [..|by apply elem_of_nil in Hin];
      eexists _, _, _, _; repeat split; vm_compute; reflexivity.
  - intros Hnot. unfold METRIC_META, py_getitem.
    destruct (list_to_map _ !! field) as [v|] eqn:Hv; [|done].
    destruct Hnot. apply elem_of_list_to_map_2 in Hv.
    repeat (apply elem_of_cons in Hv as [Heq|Hv];
            [injection Heq as -> _;
             apply (bool_decide_unpack _); vm_compute; exact I|]).
    by apply elem_of_nil in Hv.
Qed.

(** * Examples *)

(** ** The interfaces, instantiated *)

(** Python's [float] as IEEE 754 binary64: [float(n)] rounds to nearest even
    and overflows where the rounding leaves the finite range.  Strings are
    not parsed: no example stores one where a number is expected. *)
Definition binary64_of_int (n : Z) : option PrimFloat.float :=
  match SpecFloat.binary_normalize 53 1024 n 0 false with
  | SpecFloat.S754_infinity _ => None
  | x => Some (FloatOps.SF2Prim x)
  end.

#[local] Instance binary64 : PyFloat PrimFloat.float := {|
  float_of_int := binary64_of_int;
  float_of_str := λ _, None;
  float_div := PrimFloat.div
|}.

(** Records all of whose fields pass the inherited checks. *)
#[local] Instance clean_MetricCatalog : Fields MetricCatalog.t := λ _ _, [].
#[local] Instance clean_BenchmarkConfig : Fields BenchmarkConfig.t := λ _ _, [].
#[local] Instance clean_DBMSMetrics : Fields DBMSMetrics.t := λ _ _, [].

(** The values of [website/types.py]. *)
Definition COUNTER : Z := 1.
Definition INFO : Z := 2.
Definition STRING : Z := 1.
Definition INTEGER : Z := 2.

(** JSON text needs the double quote. *)
Definition quoted (s : string) : string :=
  let dq := Ascii.Ascii false true false false false true false false in
  String dq (String.append s (String dq EmptyString)).

Definition conf_text : string :=
  String.append "{" (String.append (quoted "shared_buffers")
    (String.append ": 128, " (String.append (quoted "server_version")
      (String.append ": " (String.append (quoted "9.6") "}"))))).

Definition conf_dict : gmap string (pyval PrimFloat.float) :=
  <["shared_buffers" := PInt 128]> (<["server_version" := PStr "9.6"]> ∅).

Definition metrics_text : string :=
  String.append "{" (String.append (quoted "xact_commit")
    (String.append ": 10, " (String.append (quoted "datname")
      (String.append ": " (String.append (quoted "tpcc") "}"))))).

Definition metrics_dict : gmap string (pyval PrimFloat.float) :=
  <["xact_commit" := PInt 10]> (<["datname" := PStr "tpcc"]> ∅).

Definition null_text : string :=
  String.append "{" (String.append (quoted "xact_commit") ": null}").

Definition null_dict : gmap string (pyval PrimFloat.float) :=
  <["xact_commit" := PNone]> ∅.

(** [JSONUtil.loads] on the blobs of the examples. *)
Definition example_loads (text : string) : option (pyval PrimFloat.float) :=
  if decide (text = "{}") then Some (PDict ∅)
  else if decide (text = conf_text) then Some (PDict conf_dict)
  else if decide (text = metrics_text) then Some (PDict metrics_dict)
  else if decide (text = null_text) then Some (PDict null_dict)
  else None.

(** ** A store *)

(** One project with two applications; the first application has a
    benchmark, a configuration, a metrics snapshot and a result. *)
Definition example_db : DB := {|
  knobcatalog :=
    [KnobCatalog.mk 1 1 "shared_buffers" INTEGER true;
     KnobCatalog.mk 2 1 "server_version" STRING false;
     KnobCatalog.mk 3 2 "innodb_buffer_pool_size" INTEGER true];
  metriccatalog :=
    [MetricCatalog.mk 1 1 "xact_commit" INTEGER COUNTER;
     MetricCatalog.mk 2 1 "datname" STRING INFO;
     MetricCatalog.mk 3 2 "com_commit" INTEGER COUNTER];
  projects := [Project.mk 1 7 "tuning"];
  applications :=
    [Application.mk 10 7 "tpcc" 1 1; Application.mk 11 7 "ycsb" 1 1];
  benchmarkconfigs := [BenchmarkConfig.mk 20 10 "tpcc-50" 300];
  dbconfs := [DBConf.mk 30 10 "default" conf_text 1];
  dbmsmetrics := [DBMSMetrics.mk 40 10 "run-1" 4 metrics_text 1];
  results := [Result.mk 50 10 1 20 30 40];
  resultdata := [ResultData.mk 60 1 1 50];
  tasks := [Task.mk 70 "celery-1" 50];
  statistics := [Statistics.mk 80 50 5];
  journal := []
|}.

Definition example_conf : DBConf.t := DBConf.mk 30 10 "default" conf_text 1.
Definition example_metrics : DBMSMetrics.t :=
  DBMSMetrics.mk 40 10 "run-1" 4 metrics_text 1.

(** Split a hypothesis [H : r ∈ rows], for explicit [rows], into its cases. *)
Ltac rows H :=
  simpl in H; repeat (apply elem_of_cons in H as [->|H]);
  [..|by apply elem_of_nil in H].

(** [Application.delete] on the first application: the metrics snapshot
    goes last among the rows of the application, in the cascade of the base
    [delete], after the loops took the others. *)
Example Application_delete_example :
  journal (Application_delete (Application.mk 10 7 "tpcc" 1 1) example_db) =
  [(MResultData, 60); (MTask, 70); (MStatistics, 80); (MResult, 50);
   (MDBConf, 30); (MBenchmarkConfig, 20); (MDBMSMetrics, 40);
   (MApplication, 10)].
Proof. vm_compute. reflexivity. Qed.

Example Project_delete_example :
  journal (Project_delete (Project.mk 1 7 "tuning") example_db) =
  [(MResultData, 60); (MTask, 70); (MStatistics, 80); (MResult, 50);
   (MDBConf, 30); (MBenchmarkConfig, 20); (MDBMSMetrics, 40);
   (MApplication, 10); (MApplication, 11); (MProject, 1)].
Proof. vm_compute. reflexivity. Qed.

Example get_tuning_configuration_example :
  get_tuning_configuration example_loads example_db example_conf false =
    Ok {[ "shared_buffers" := PInt 128 ]}
  ∧ get_tuning_configuration example_loads example_db example_conf true =
    Ok (<["shared_buffers" := PInt 128]> {[ "server_version" := PStr "--" ]}).
Proof. split; vm_compute; reflexivity. Qed.

(** 2.5 = 5 * 2^-1, in binary64. *)
Definition two_and_a_half : PrimFloat.float :=
  FloatOps.SF2Prim (SpecFloat.S754_finite false 5 (-1)).

Example get_normalized_configuration_example :
  get_normalized_configuration COUNTER example_loads example_db
    example_metrics false =
    Ok [("xact_commit", PFloat two_and_a_half)]
  ∧ get_normalized_configuration COUNTER example_loads example_db
      example_metrics true =
    Ok [("xact_commit", PFloat two_and_a_half); ("datname", PStr "--")].
Proof. split; vm_compute; reflexivity. Qed.

(** ** The claims at concrete records *)

(** Records whose blob is the empty JSON object, a snapshot whose blob holds
    [null] for the counter, and one that skipped validation. *)
Definition empty_conf : DBConf.t := DBConf.mk 31 11 "fresh" "{}" 1.
Definition empty_metrics : DBMSMetrics.t :=
  DBMSMetrics.mk 41 11 "run-0" 4 "{}" 1.
Definition null_metrics : DBMSMetrics.t :=
  DBMSMetrics.mk 42 11 "run-2" 4 null_text 1.
Definition unvalidated_metrics : DBMSMetrics.t :=
  DBMSMetrics.mk 43 11 "run-3" 0 metrics_text 1.

(** A snapshot whose [execution_time] is an integer no float can hold. *)
Definition overflowing_metrics : DBMSMetrics.t :=
  DBMSMetrics.mk 44 11 "run-4" (2 ^ 1024) metrics_text 1.

(** C3 at [example_conf]. *)
Lemma get_tuning_configuration_tunable_witness :
  ∃ params,
    get_tuning_configuration example_loads example_db example_conf false
      = Ok params
    ∧ params !! "shared_buffers" = Some (PInt 128)
    ∧ params !! "server_version" = None.
Proof.
  destruct (get_tuning_configuration_tunable example_loads example_db
              example_conf conf_dict) as (params & Hret & Hkeys & Hval).
  - reflexivity.
  - intros p Hp Hd Ht. rows Hp; try discriminate. vm_compute. eauto.
  - exists params. split; [exact Hret|]. split.
    + apply (Hval (KnobCatalog.mk 1 1 "shared_buffers" INTEGER true));
        [|reflexivity..]. simpl. constructor.
    + destruct (params !! "server_version") as [v|] eqn:Hsv; [|reflexivity].
      destruct (proj1 (Hkeys "server_version")) as (p & Hp & _ & Ht & Hn);
        [eauto|]. rows Hp; discriminate.
Defined.

(** C3 fails without that precondition: the blob of [empty_conf] is a JSON object, the catalog
    has a tunable knob for its [dbms], and the call raises. *)
Lemma get_tuning_configuration_KeyError :
  example_loads (DBConf.configuration empty_conf) = Some (PDict ∅)
  ∧ get_tuning_configuration example_loads example_db empty_conf false
    = Raise (KeyError "shared_buffers").
Proof. split; vm_compute; reflexivity. Qed.

(** C4 at [example_metrics]. *)
Lemma get_normalized_configuration_counters_witness :
  ∃ norm_metrics,
    get_normalized_configuration COUNTER example_loads example_db
      example_metrics false = Ok norm_metrics
    ∧ od_getitem "xact_commit" norm_metrics = Some (PFloat two_and_a_half)
    ∧ od_getitem "datname" norm_metrics = None.
Proof.
  destruct (get_normalized_configuration_counters COUNTER example_loads
              example_db example_metrics metrics_dict
              (FloatOps.SF2Prim (SpecFloat.S754_finite false 1 2)))
    as (norm & Hret & Hkeys & Hval).
  - reflexivity.
  - simpl. lia.
  - vm_compute. reflexivity.
  - intros m Hm Hd Hc. rows Hm; try discriminate.
    eexists _, _. split; vm_compute; reflexivity.
  - exists norm. split; [exact Hret|]. split.
    + eapply eq_trans;
        [apply (Hval (MetricCatalog.mk 1 1 "xact_commit" INTEGER COUNTER)
                  (PInt 10)
                  (FloatOps.SF2Prim (SpecFloat.S754_finite false 5 1)));
         [simpl; constructor|reflexivity..]
        |vm_compute; reflexivity].
    + destruct (od_getitem "datname" norm) as [v|] eqn:Hdn; [|reflexivity].
      destruct (proj1 (Hkeys "datname")) as (m & Hm & _ & Hc & Hn);
        [eauto|]. rows Hm; discriminate.
Defined.

(** C4 fails without those preconditions: on blobs that are JSON objects the call raises when
    the blob lacks a counter metric, when the value stored is no number,
    when [execution_time] is zero, and when [execution_time] is not zero
    but beyond the range of a float. *)
Lemma get_normalized_configuration_raises :
  (example_loads (DBMSMetrics.configuration empty_metrics) = Some (PDict ∅)
   ∧ get_normalized_configuration COUNTER example_loads example_db
       empty_metrics false = Raise (KeyError "xact_commit"))
  ∧ (example_loads (DBMSMetrics.configuration null_metrics)
       = Some (PDict null_dict)
     ∧ get_normalized_configuration COUNTER example_loads example_db
         null_metrics false = Raise TypeError)
  ∧ (example_loads (DBMSMetrics.configuration unvalidated_metrics)
       = Some (PDict metrics_dict)
     ∧ get_normalized_configuration COUNTER example_loads example_db
         unvalidated_metrics false = Raise ZeroDivisionError)
  ∧ (example_loads (DBMSMetrics.configuration overflowing_metrics)
       = Some (PDict metrics_dict)
     ∧ (DBMSMetrics.execution_time overflowing_metrics =? 0) = false
     ∧ get_normalized_configuration COUNTER example_loads example_db
         overflowing_metrics false = Raise OverflowError).
Proof. repeat split; vm_compute; reflexivity. Qed.

(** C5 at a counter metric of string type. *)
Lemma MetricCatalog_clean_fields_counter_witness :
  MetricCatalog_clean_fields COUNTER INTEGER
    (MetricCatalog.mk 9 1 "datname" STRING COUNTER) None
  = Raise (ValidationError (Message "Counter metrics must be integers.")).
Proof.
  apply (MetricCatalog_clean_fields_counter COUNTER INTEGER
           (MetricCatalog.mk 9 1 "datname" STRING COUNTER) None).
  - split; [reflexivity|discriminate].
  - reflexivity.
Defined.

(** C6 at [example_metrics], whose [execution_time] is 4. *)
Lemma DBMSMetrics_clean_fields_positive_witness :
  DBMSMetrics_clean_fields example_metrics None = Ok tt.
Proof.
  apply (DBMSMetrics_clean_fields_positive example_metrics None).
  - reflexivity.
  - simpl. lia.
Defined.

(** C7 at a benchmark of 300 seconds. *)
Lemma BenchmarkConfig_clean_fields_positive_witness :
  BenchmarkConfig_clean_fields (BenchmarkConfig.mk 20 10 "tpcc-50" 300) None
  = Ok tt.
Proof.
  apply (BenchmarkConfig_clean_fields_positive
           (BenchmarkConfig.mk 20 10 "tpcc-50" 300) None).
  - reflexivity.
  - simpl. lia.
Defined.

(** C8 at [example_conf]: the knob that is not tunable gets the
    placeholder, the tunable one keeps its value. *)
Lemma include_all_placeholders_witness :
  ∃ params',
    get_tuning_configuration example_loads example_db example_conf true
      = Ok params'
    ∧ params' !! "server_version" = Some (PStr "--")
    ∧ params' !! "shared_buffers" = Some (PInt 128).
Proof.
  destruct (proj1 (include_all_placeholders COUNTER example_loads example_db)
              example_conf {[ "shared_buffers" := PInt 128 ]})
    as (params' & Hret & Hother & Hsame).
  - vm_compute. reflexivity.
  - intros p q Hp Hq Hdp Hdq Htp Htq. rows Hp; rows Hq; discriminate.
  - exists params'. split; [exact Hret|]. split.
    + apply (Hother (KnobCatalog.mk 2 1 "server_version" STRING false));
        [|reflexivity..]. simpl. right. constructor.
    + eapply eq_trans;
        [apply (Hsame (KnobCatalog.mk 1 1 "shared_buffers" INTEGER true));
         [simpl; constructor|reflexivity..]
        |vm_compute; reflexivity].
Defined.

(** A catalog in which a tunable and a fixed knob of one [dbms] share a
    name, in either order. *)
Definition shared_name_db (tunable_first : bool) : DB := {|
  knobcatalog :=
    if tunable_first
    then [KnobCatalog.mk 1 1 "shared_buffers" INTEGER true;
          KnobCatalog.mk 2 1 "shared_buffers" INTEGER false]
    else [KnobCatalog.mk 2 1 "shared_buffers" INTEGER false;
          KnobCatalog.mk 1 1 "shared_buffers" INTEGER true];
  metriccatalog := [];
  projects := []; applications := []; benchmarkconfigs := [];
  dbconfs := [example_conf]; dbmsmetrics := []; results := [];
  resultdata := []; tasks := []; statistics := []; journal := []
|}.

(** C8 fails on a shared name: when the fixed knob comes later, the flag changes the
    entry of the tunable knob; when it comes first, it is not mapped to the
    placeholder. *)
Lemma include_all_shared_name :
  (get_tuning_configuration example_loads (shared_name_db true)
     example_conf false = Ok {[ "shared_buffers" := PInt 128 ]}
   ∧ get_tuning_configuration example_loads (shared_name_db true)
       example_conf true = Ok {[ "shared_buffers" := PStr "--" ]})
  ∧ get_tuning_configuration example_loads (shared_name_db false)
      example_conf true = Ok {[ "shared_buffers" := PInt 128 ]}.
Proof. repeat split; vm_compute; reflexivity. Qed.

(** C9 at [empty_conf]: the lookup of a tunable knob raises. *)
Lemma view_helpers_partial_witness :
  ∃ p, p ∈ knobcatalog example_db
       ∧ get_tuning_configuration example_loads example_db empty_conf false
         = Raise (KeyError (KnobCatalog.name p)).
Proof.
  destruct (proj1 (proj1 (view_helpers_partial COUNTER example_loads
                            example_db false) empty_conf ∅ eq_refl))
    as (p & Hp & _ & _ & _ & Hraise).
  - exists (KnobCatalog.mk 1 1 "shared_buffers" INTEGER true).
    split; [simpl; constructor|]. repeat split; reflexivity.
  - exists p. split; [exact Hp|exact Hraise].
Defined.

(** A catalog with two counter metrics, the first of which the blob of
    [null_metrics] holds as [null] and the second of which it lacks. *)
Definition two_counters_db : DB := {|
  knobcatalog := [];
  metriccatalog :=
    [MetricCatalog.mk 1 1 "xact_commit" INTEGER COUNTER;
     MetricCatalog.mk 4 1 "xact_rollback" INTEGER COUNTER];
  projects := []; applications := []; benchmarkconfigs := [];
  dbconfs := []; dbmsmetrics := [null_metrics]; results := [];
  resultdata := []; tasks := []; statistics := []; journal := []
|}.

(** C9 fails for the error raised: a counter metric is absent from the blob, and the
    call raises a [TypeError], from the conversion of the metric before
    it. *)
Lemma get_normalized_configuration_TypeError :
  example_loads (DBMSMetrics.configuration null_metrics)
    = Some (PDict null_dict)
  ∧ null_dict !! "xact_rollback" = None
  ∧ get_normalized_configuration COUNTER example_loads two_counters_db
      null_metrics false = Raise TypeError.
Proof. repeat split; vm_compute; reflexivity. Qed.


(** ** The further properties at concrete records *)

Lemma example_db_unique_keys : unique_keys example_db.
Proof. split; apply (bool_decide_unpack _); vm_compute; exact I. Qed.

(** Find a row of an explicit list, backtracking on the choice. *)
Ltac member := apply list_elem_of_here + (apply list_elem_of_further; member).

Lemma example_db_integrity : integrity example_db.
Proof.
  split; intros y Hy; rows Hy; eexists; (split; [simpl; member|reflexivity]).
Qed.

(** X2 at [example_db]: after the first application is deleted no foreign
    key dangles. *)
Lemma delete_keeps_integrity_witness :
  integrity (Application_delete (Application.mk 10 7 "tpcc" 1 1) example_db).
Proof.
  apply (proj1 (delete_keeps_integrity example_db example_db_integrity)).
Defined.

(** X5 at [example_db]: the second application stays, and nothing of the
    first. *)
Lemma Application_delete_exact_witness :
  applications (Application_delete (Application.mk 10 7 "tpcc" 1 1) example_db)
    = [Application.mk 11 7 "ycsb" 1 1]
  ∧ dbmsmetrics
      (Application_delete (Application.mk 10 7 "tpcc" 1 1) example_db) = [].
Proof.
  destruct (Application_delete_exact (Application.mk 10 7 "tpcc" 1 1)
              example_db example_db_unique_keys)
    as (_ & Ha & _ & _ & Hm & _).
  split; [rewrite Ha|rewrite Hm]; vm_compute; reflexivity.
Defined.

(** X6 at [example_db]: an application and a project it holds no row of. *)
Lemma delete_absent_witness :
  Application_delete (Application.mk 12 7 "gone" 1 1) example_db = example_db
  ∧ Project_delete (Project.mk 2 7 "gone") example_db = example_db.
Proof.
  destruct (delete_absent example_db) as [Ha Hp]. split.
  - apply Ha. split; intros y Hy; rows Hy; discriminate.
  - apply Hp; intros y Hy; rows Hy; discriminate.
Defined.

(** X10 at [example_metrics], with [include_all]. *)
Lemma get_normalized_configuration_order_witness :
  [("xact_commit", PFloat two_and_a_half); ("datname", PStr "--")].*1
  = ["xact_commit"; "datname"].
Proof.
  eapply eq_trans;
    [apply (get_normalized_configuration_order COUNTER example_loads
              example_db example_metrics true)|].
  - apply (bool_decide_unpack _). vm_compute. exact I.
  - vm_compute. reflexivity.
  - vm_compute. reflexivity.
Defined.

(** X14 at [example_db]: the project goes with both applications. *)
Lemma Project_delete_exact_witness :
  projects (Project_delete (Project.mk 1 7 "tuning") example_db) = []
  ∧ applications (Project_delete (Project.mk 1 7 "tuning") example_db) = [].
Proof.
  destruct (Project_delete_exact (Project.mk 1 7 "tuning")
              example_db example_db_unique_keys)
    as (Hp & Ha & _).
  split; [rewrite Hp|rewrite Ha]; vm_compute; reflexivity.
Defined.

(** X15 at the result of [example_db], whose label is ["50"]. *)
Lemma Result_unicode_identifies_witness :
  Result___unicode__ (Result.mk 50 10 1 20 30 40) = "50"
  ∧ Result.mk 50 10 1 20 30 40 = Result.mk 50 10 1 20 30 40.
Proof.
  split; [vm_compute; reflexivity|].
  apply (Result_unicode_identifies example_db);
    [apply example_db_unique_keys|simpl; constructor..|reflexivity].
Defined.

(** X16 at [example_db]. *)
Lemma delete_journal_permutation_witness :
  ∃ l l',
    journal (Application_delete (Application.mk 10 7 "tpcc" 1 1) example_db)
      = journal example_db ++ l
    ∧ journal (Model_delete MApplication 10 example_db)
      = journal example_db ++ l'
    ∧ NoDup l ∧ l ≡ₚ l'.
Proof.
  apply (proj1 (delete_journal_permutation example_db example_db_unique_keys)
           (Application.mk 10 7 "tpcc" 1 1)).
Defined.

(** The journal of the base [delete] of the first application alone: the
    rows of [Application_delete_example], the metrics snapshot before the
    configuration and the benchmark. *)
Example Model_delete_example :
  journal (Model_delete MApplication 10 example_db) =
  [(MResultData, 60); (MTask, 70); (MStatistics, 80); (MResult, 50);
   (MDBMSMetrics, 40); (MDBConf, 30); (MBenchmarkConfig, 20);
   (MApplication, 10)].
Proof. vm_compute. reflexivity. Qed.
